(** * emotionsinapod_backend: the upload-and-list pipeline over S3

    A shallow embedding of the Express handlers and of the S3 service
    functions (services/s3FileService.js, controllers/uploadController.js,
    controllers/fileController.js and the monolithic server.js), followed by
    the theorems that relate them to the written specification. *)

From Equations Require Import Equations.
From Stdlib Require Import String Ascii List Arith ZArith NArith Lia Bool.
From Stdlib Require Import DecimalString Sorting.Sorted Sorting.Permutation.
Import ListNotations.

Local Open Scope Z_scope.

(** ** JavaScript strings

    A JavaScript string is a sequence of UTF-16 code units.  The regular
    expression [/\s+/g] carries no [u] flag, so it works on code units, and
    every white space character of ECMAScript sits in the basic plane. *)

Module JsString.

Definition jsstring : Type := list N.

(** An ASCII literal of the source, code unit by code unit. *)
Definition js (s : string) : jsstring :=
  List.map N_of_ascii (list_ascii_of_string s).

Fixpoint eqb (a b : jsstring) : bool :=
  match a, b with
  | [], [] => true
  | x :: a', y :: b' => N.eqb x y && eqb a' b'
  | _, _ => false
  end.

(** [s.startsWith(p)] *)
Fixpoint startsWith (p s : jsstring) : bool :=
  match p, s with
  | [], _ => true
  | x :: p', y :: s' => N.eqb x y && startsWith p' s'
  | _ :: _, [] => false
  end.

(** [s.includes(p)] *)
Fixpoint includes (p s : jsstring) : bool :=
  startsWith p s ||
  match s with
  | [] => false
  | _ :: s' => includes p s'
  end.

(** The character class [\s]: WhiteSpace and LineTerminator of ECMAScript. *)
Definition is_space (c : N) : bool :=
  let c := Z.of_N c in
  ((9 <=? c) && (c <=? 13))          (* TAB LF VT FF CR *)
  || (c =? 32)                        (* SPACE *)
  || (c =? 160)                       (* NO-BREAK SPACE *)
  || (c =? 5760)                      (* U+1680 *)
  || ((8192 <=? c) && (c <=? 8202))   (* U+2000 .. U+200A *)
  || (c =? 8232) || (c =? 8233)       (* U+2028 U+2029 *)
  || (c =? 8239) || (c =? 8287)       (* U+202F U+205F *)
  || (c =? 12288)                     (* U+3000 *)
  || (c =? 65279).                    (* U+FEFF *)

Fixpoint dropWhile (p : N -> bool) (s : jsstring) : jsstring :=
  match s with
  | [] => []
  | c :: t => if p c then dropWhile p t else s
  end.

Definition underscore : N := 95%N.
Definition dquote : N := 34%N.

(** [s.replace(/\s+/g, '_')]: scanning from the left, a position that holds
    a white space starts a match, the match is greedy and takes the whole
    run, one underscore is written for it and the scan goes on behind the
    match; any other code unit is copied. *)
Equations? replace_ws (s : jsstring) : jsstring by wf (length s) lt :=
  replace_ws [] := [];
  replace_ws (c :: t) with is_space c := {
    | true := underscore :: replace_ws (dropWhile is_space t);
    | false := c :: replace_ws t }.
Proof.
  all: simpl; try lia.
  clear.
  induction t as [|d u IH]; simpl; [lia|].
  destruct (is_space d); simpl; lia.
Qed.

(** [String(n)] for an integral Number below 10^21 in magnitude, which is
    the decimal numeral; [Date.now()] never leaves that range. *)
Definition of_int (n : Z) : jsstring :=
  js (NilZero.string_of_int (Z.to_int n)).

End JsString.
Import JsString.


(** ** Values, errors and completions *)

Module Js.

(** What an object literal handed to [res.json] can hold. *)
#[warnings="-register-all"]
Inductive jsval : Type :=
| VUndefined
| VNull
| VBool (b : bool)
| VNum (n : Z)
| VStr (s : jsstring)
| VDate (time : Z)
| VArr (items : list jsval)
| VObj (props : list (string * jsval)).

(** One property of an object literal, [k: v]. *)
Definition prop (k : string) (v : jsval) : string * jsval := (k, v).

Definition truthy (v : jsval) : bool :=
  match v with
  | VUndefined | VNull => false
  | VBool b => b
  | VNum n => negb (n =? 0)
  | VStr s => match s with [] => false | _ :: _ => true end
  | VDate _ | VArr _ | VObj _ => true
  end.

(** [a || b] *)
Definition or_else (a b : jsval) : jsval := if truthy a then a else b.

Definition num_or_undefined (o : option Z) : jsval :=
  match o with Some n => VNum n | None => VUndefined end.

Definition str_or_undefined (o : option jsstring) : jsval :=
  match o with Some s => VStr s | None => VUndefined end.

(** [s || d] on a value that is a string or undefined. *)
Definition str_or (o : option jsstring) (d : jsstring) : jsstring :=
  match o with
  | Some ((_ :: _) as s) => s
  | _ => d
  end.

(** Property lookup on an object value. *)
Fixpoint lookup (k : string) (props : list (string * jsval)) : option jsval :=
  match props with
  | [] => None
  | (k', v) :: rest => if String.eqb k k' then Some v else lookup k rest
  end.

Definition get (k : string) (v : jsval) : option jsval :=
  match v with
  | VObj props => lookup k props
  | _ => None
  end.

Definition has (k : string) (v : jsval) : bool :=
  match get k v with Some _ => true | None => false end.

(** The names of the own properties, in insertion order. *)
Definition keys (v : jsval) : list string :=
  match v with
  | VObj props => List.map fst props
  | _ => []
  end.

(** A thrown value: an [Error] with its [name] and [message]; the errors of
    the S3 client carry [$metadata.httpStatusCode] too. *)
Record error : Type := {
  name : jsstring;
  message : jsstring;
  httpStatusCode : option Z
}.

(** [String(err)], that is [Error.prototype.toString]. *)
Definition error_toString (e : error) : jsstring :=
  match name e, message e with
  | [], m => m
  | n, [] => n
  | n, m => n ++ js ": " ++ m
  end.

(** What V8 throws for [undefined.startsWith]. *)
Definition TypeError_reading (property : string) : error :=
  {| name := js "TypeError";
     message := js "Cannot read properties of undefined (reading '"
                ++ js property ++ js "')";
     httpStatusCode := None |}.

Definition URIError_malformed : error :=
  {| name := js "URIError"; message := js "URI malformed";
     httpStatusCode := None |}.

(** How the evaluation of a function body ends. *)
Inductive completion (A : Type) : Type :=
| Normal (a : A)
| Throw (e : error).
Arguments Normal {A} a.
Arguments Throw {A} e.

Definition completion_map {A B} (f : A -> B) (c : completion A) : completion B :=
  match c with
  | Normal a => Normal (f a)
  | Throw e => Throw e
  end.

Definition is_normal {A} (c : completion A) : bool :=
  match c with Normal _ => true | Throw _ => false end.

End Js.
Import Js.

(** ** The S3 client and the clock as external calls *)

Module S3.

(** One element of [Contents] in a ListObjectsV2 answer.  [Key] and [Size]
    are optional in the client's types and the code guards both;
    [LastModified] is the time value (milliseconds) of the [Date] S3 gives
    for every listed object, which the code uses unguarded. *)
Record object : Type := {
  Key : option jsstring;
  Size : option Z;
  LastModified : Z
}.

(** The answer to HeadBucket, as far as the code reads it:
    [head?.$metadata?.httpStatusCode]. *)
Record head_output : Type := {
  head_httpStatusCode : option Z
}.

Record list_output : Type := {
  Contents : option (list object);
  list_httpStatusCode : option Z
}.

(** The options of [new Upload({ client, params, leavePartsOnError })]. *)
Record upload_options : Type := {
  Bucket : jsstring;
  UploadKey : jsstring;
  Body : list Byte.byte;
  ContentType : option jsstring;
  leavePartsOnError : option bool
}.

(** The calls that leave the process. *)
Inductive call : Type :=
| HeadBucketCommand (bucket : jsstring)
| ListObjectsV2Command (bucket prefix : jsstring) (MaxKeys : Z)
| UploadDone (options : upload_options)
| GetSignedUrl (bucket : jsstring) (key : option jsstring) (expiresIn : Z)
| DateNow.

Definition answer (c : call) : Type :=
  match c with
  | HeadBucketCommand _ => completion head_output
  | ListObjectsV2Command _ _ _ => completion list_output
  | UploadDone _ => completion unit
  | GetSignedUrl _ _ _ => completion jsstring
  | DateNow => Z
  end.

End S3.

(** ** Programs: a tree of external calls *)

Module Prog.

(** [Race n k]: [n + 1] pending promises have been rejected, and the
    program goes on with the index of the one that was rejected first. *)
Inductive prog (A : Type) : Type :=
| Ret (a : A)
| Do (c : S3.call) (k : S3.answer c -> prog A)
| Race (n : nat) (k : nat -> prog A).
Arguments Ret {A} a.
Arguments Do {A} c k.
Arguments Race {A} n k.

Fixpoint bind {A B} (m : prog A) (f : A -> prog B) : prog B :=
  match m with
  | Ret a => f a
  | Do c k => Do c (fun r => bind (k r) f)
  | Race n k => Race n (fun i => bind (k i) f)
  end.

(** An async function body: it issues calls and completes normally or by a
    throw. *)
Definition M (A : Type) : Type := prog (completion A).

Definition ret {A} (a : A) : M A := Ret (Normal a).

Definition throw {A} (e : error) : M A := Ret (Throw e).

(** Sequencing: a throw skips the rest. *)
Definition seq {A B} (m : M A) (f : A -> M B) : M B :=
  bind m (fun r => match r with Normal a => f a | Throw e => Ret (Throw e) end).

(** [try { m } catch (err) { h err }] *)
Definition try_catch {A} (m : M A) (h : error -> M A) : M A :=
  bind m (fun r => match r with Normal a => Ret (Normal a) | Throw e => h e end).

(** A completion computed without any call. *)
Definition lift {A} (c : completion A) : M A := Ret c.

(** [await s3.send(cmd)], [await uploader.done()], [await getSignedUrl(..)] *)
Definition send_head (bucket : jsstring) : M S3.head_output :=
  Do (S3.HeadBucketCommand bucket) (fun r => Ret r).

Definition send_list (bucket prefix : jsstring) (MaxKeys : Z) : M S3.list_output :=
  Do (S3.ListObjectsV2Command bucket prefix MaxKeys) (fun r => Ret r).

Definition upload_done (options : S3.upload_options) : M unit :=
  Do (S3.UploadDone options) (fun r => Ret r).

Definition getSignedUrl (bucket : jsstring) (key : option jsstring)
    (expiresIn : Z) : M jsstring :=
  Do (S3.GetSignedUrl bucket key expiresIn) (fun r => Ret r).

Definition Date_now : M Z :=
  Do S3.DateNow (fun t => Ret (Normal t)).

(** [Promise.all(items.map(async item => body item))].  Every body runs up
    to its await when [map] reaches it, so the calls leave in array order
    and none is skipped when another fails.  The promise is fulfilled with
    all results, in array order, when every element is fulfilled; otherwise
    it is rejected with the reason of the element that was rejected first
    in time, which the race decides. *)
Fixpoint gather {A} (ps : list (M A)) : prog (list (completion A)) :=
  match ps with
  | [] => Ret []
  | p :: rest => bind p (fun r => bind (gather rest) (fun rs => Ret (r :: rs)))
  end.

(** The values of the fulfilled elements and the reasons of the rejected
    ones, each in array order. *)
Fixpoint fulfilled {A} (rs : list (completion A)) : list A :=
  match rs with
  | [] => []
  | Normal a :: rest => a :: fulfilled rest
  | Throw _ :: rest => fulfilled rest
  end.

Fixpoint rejections {A} (rs : list (completion A)) : list error :=
  match rs with
  | [] => []
  | Normal _ :: rest => rejections rest
  | Throw e :: rest => e :: rejections rest
  end.

Definition settle {A} (rs : list (completion A)) : M (list A) :=
  match rejections rs with
  | [] => Ret (Normal (fulfilled rs))
  | e :: es => Race (List.length es) (fun i => Ret (Throw (nth i (e :: es) e)))
  end.

Definition Promise_all {A} (ps : list (M A)) : M (list A) :=
  bind (gather ps) settle.

(** The outside world: a state, its answer to every call, and the order in
    which rejections arrive ([first_rejected s n] is the index, among
    [n + 1] rejections, of the one that arrives first). *)
Record world : Type := {
  state : Type;
  respond : forall c : S3.call, state -> S3.answer c * state;
  first_rejected : state -> nat -> nat
}.

(** Running a program against a world gives the calls made, in order, the
    value returned and the state the world is left in. *)
Fixpoint exec {A} (w : world) (p : prog A) (s : state w)
    : list S3.call * A * state w :=
  match p with
  | Ret a => ([], a, s)
  | Do c k =>
      let (r, s') := respond w c s in
      let '(calls, a, s'') := exec w (k r) s' in
      (c :: calls, a, s'')
  | Race n k => exec w (k (first_rejected w s n)) s
  end.

Definition calls {A} (w : world) (p : prog A) (s : state w) : list S3.call :=
  fst (fst (exec w p s)).

Definition result {A} (w : world) (p : prog A) (s : state w) : A :=
  snd (fst (exec w p s)).

End Prog.
Import Prog.

Notation "x <- m ;; k" := (seq m (fun x => k))
  (at level 61, m at next level, right associativity).

(** ** Built-in functions the code calls *)

Module Builtin.

(** [arr.sort(cmp)].  The sort of ECMAScript is stable, so with a
    consistent comparator its result is determined: here every element is
    inserted, from the right, ahead of the first element it does not have
    to follow ([cmp x y <= 0]). *)
Fixpoint insert_by {A} (cmp : A -> A -> Z) (x : A) (l : list A) : list A :=
  match l with
  | [] => [x]
  | y :: t => if cmp x y <=? 0 then x :: l else y :: insert_by cmp x t
  end.

Definition sort {A} (cmp : A -> A -> Z) (l : list A) : list A :=
  fold_right (insert_by cmp) [] l.

(** [arr.slice(0, e)] for an integral [e]: a negative end counts from the
    back, and the end is clamped to the length. *)
Definition slice0 {A} (l : list A) (e : Z) : list A :=
  let len := Z.of_nat (List.length l) in
  let final := if e <? 0 then Z.max (len + e) 0 else Z.min e len in
  firstn (Z.to_nat final) l.

(** [encodeURIComponent]: the unreserved code units stay, every other code
    point is written as the escaped bytes of its UTF-8 form, and a
    surrogate without its partner throws a URIError. *)
Definition uri_unreserved (c : Z) : bool :=
  ((65 <=? c) && (c <=? 90)) || ((97 <=? c) && (c <=? 122))
  || ((48 <=? c) && (c <=? 57))
  || (c =? 45) || (c =? 95) || (c =? 46) || (c =? 33) || (c =? 126)
  || (c =? 42) || (c =? 39) || (c =? 40) || (c =? 41).

Definition hex_digit (d : Z) : N :=
  Z.to_N (if d <? 10 then 48 + d else 55 + d).

Definition escape_byte (b : Z) : jsstring :=
  [37%N; hex_digit (b / 16); hex_digit (b mod 16)].

Definition utf8 (cp : Z) : list Z :=
  if cp <? 128 then [cp]
  else if cp <? 2048 then [192 + cp / 64; 128 + cp mod 64]
  else if cp <? 65536 then
    [224 + cp / 4096; 128 + (cp / 64) mod 64; 128 + cp mod 64]
  else
    [240 + cp / 262144; 128 + (cp / 4096) mod 64;
     128 + (cp / 64) mod 64; 128 + cp mod 64].

Definition escape_code_point (cp : Z) : jsstring :=
  flat_map escape_byte (utf8 cp).

Definition is_high_surrogate (c : Z) : bool := (55296 <=? c) && (c <=? 56319).
Definition is_low_surrogate (c : Z) : bool := (56320 <=? c) && (c <=? 57343).

Fixpoint encodeURIComponent (s : jsstring) : completion jsstring :=
  match s with
  | [] => Normal []
  | c :: t =>
      let z := Z.of_N c in
      if uri_unreserved z then completion_map (cons c) (encodeURIComponent t)
      else if is_low_surrogate z then Throw URIError_malformed
      else if is_high_surrogate z then
        match t with
        | d :: t' =>
            if is_low_surrogate (Z.of_N d) then
              let cp := (z - 55296) * 1024 + (Z.of_N d - 56320) + 65536 in
              completion_map (app (escape_code_point cp)) (encodeURIComponent t')
            else Throw URIError_malformed
        | [] => Throw URIError_malformed
        end
      else completion_map (app (escape_code_point z)) (encodeURIComponent t)
  end.

End Builtin.

(** ** Runtime configuration and the objects of a request *)

(** The two settings the deployment has to provide: the bucket
    ([process.env.S3_BUCKET] in server.js, the [BUCKET] that config/s3.js
    exports to the service) and [process.env.AWS_REGION]. *)
Record config : Type := {
  BUCKET : jsstring;
  AWS_REGION : jsstring
}.

(** [req.file] as multer's memory storage fills it. *)
Module File.
Record t : Type := {
  mimetype : option jsstring;
  originalname : option jsstring;
  buffer : list Byte.byte;
  size : Z
}.
End File.

Module Http.

(** What a handler reads of the request: [req.get('X-Client-Source')] and
    [req.file]. *)
Record request : Type := {
  X_Client_Source : option jsstring;
  file : option File.t
}.

(** What a handler sends: [res.status(n).json(body)]; [res.json(body)]
    sends 200. *)
Record response : Type := {
  status : Z;
  body : jsval
}.

Definition json (b : jsval) : response := {| status := 200; body := b |}.
Definition status_json (n : Z) (b : jsval) : response := {| status := n; body := b |}.

(** [source !== 'literal'] on a header that is a string or undefined. *)
Definition differs (v : option jsstring) (lit : jsstring) : bool :=
  match v with
  | Some s => negb (JsString.eqb s lit)
  | None => true
  end.

(** A handler body wrapped in [try { .. } catch (err) { res.status(..).. }]. *)
Definition handle (m : M response) (h : error -> response) : prog response :=
  bind m (fun r => match r with Normal a => Ret a | Throw e => Ret (h e) end).

End Http.
Import Http.

(** ** services/s3FileService.js *)

Module S3FileService.

(** Modelled from the spec: the constant [PREFIX] that config/s3.js exports
    (that file is not among the sources).  The spec fixes the object-key
    prefix to uploads/, the value server.js declares for its own [PREFIX]. *)
Definition PREFIX : jsstring := js "uploads/".

(** [{ key, url, contentType, size }] *)
Module UploadResult.
Record t : Type := {
  key : jsstring;
  url : jsstring;
  contentType : option jsstring;
  size : Z
}.
End UploadResult.

(** [{ key, size, lastModified, url }] *)
Module Entry.
Record t : Type := {
  key : option jsstring;
  size : option Z;
  lastModified : Z;
  url : jsstring
}.

Definition to_val (e : t) : jsval :=
  VObj [prop "key" (str_or_undefined (key e));
        prop "size" (num_or_undefined (size e));
        prop "lastModified" (VDate (lastModified e));
        prop "url" (VStr (url e))].
End Entry.

(** [list?.Contents || []] *)
Definition contents_or_empty (listing : S3.list_output) : list S3.object :=
  match S3.Contents listing with
  | Some l => l
  | None => []
  end.

(** [o.Key && o.Size > 0] *)
Definition real_object (o : S3.object) : bool :=
  truthy (str_or_undefined (S3.Key o))
  && match S3.Size o with Some n => 0 <? n | None => false end.

(** [(a, b) => new Date(b.LastModified) - new Date(a.LastModified)] *)
Definition by_date_desc (a b : S3.object) : Z :=
  S3.LastModified b - S3.LastModified a.

Section WithConfig.
Context (cfg : config).

(** [debugS3Connectivity()], s3FileService.js lines 12-60. *)
Definition debugS3Connectivity : M jsval :=
  step1 <-
    try_catch
      (head <- send_head (BUCKET cfg) ;;
       ret (VObj [prop "step" (VStr (js "HeadBucket"));
                  prop "ok" (VBool true);
                  prop "httpStatus" (num_or_undefined (S3.head_httpStatusCode head))]))
      (fun err =>
       ret (VObj [prop "step" (VStr (js "HeadBucket"));
                  prop "ok" (VBool false);
                  prop "code" (VStr (name err));
                  prop "message" (VStr (message err))])) ;;
  step2 <-
    try_catch
      (listing <- send_list (BUCKET cfg) PREFIX 5 ;;
       ret (VObj [prop "step" (VStr (js "ListObjectsV2"));
                  prop "ok" (VBool true);
                  prop "count" (VNum (Z.of_nat (List.length (contents_or_empty listing))));
                  prop "keys" (VArr (List.map (fun o => str_or_undefined (S3.Key o))
                                              (contents_or_empty listing)))]))
      (fun err =>
       ret (VObj [prop "step" (VStr (js "ListObjectsV2"));
                  prop "ok" (VBool false);
                  prop "code" (VStr (name err));
                  prop "message" (VStr (message err))])) ;;
  ret (VObj [prop "region" (VStr (AWS_REGION cfg));
             prop "bucket" (VStr (BUCKET cfg));
             prop "steps" (VArr [step1; step2])]).

(** The key template [`${PREFIX}${Date.now()}-${sanitized}`]. *)
Definition object_key (now : Z) (sanitized : jsstring) : jsstring :=
  PREFIX ++ of_int now ++ js "-" ++ sanitized.

Definition object_url (enc : jsstring) : jsstring :=
  js "https://" ++ BUCKET cfg ++ js ".s3." ++ AWS_REGION cfg
  ++ js ".amazonaws.com/" ++ enc.

(** [uploadVideoToS3(file)], s3FileService.js lines 63-87. *)
Definition uploadVideoToS3 (file : File.t) : M UploadResult.t :=
  let ct := File.mimetype file in
  let original := str_or (File.originalname file) (js "video.mp4") in
  let sanitized := replace_ws original in
  now <- Date_now ;;
  let key := object_key now sanitized in
  _ <- upload_done {| S3.Bucket := BUCKET cfg;
                      S3.UploadKey := key;
                      S3.Body := File.buffer file;
                      S3.ContentType := ct;
                      S3.leavePartsOnError := None |} ;;
  enc <- lift (Builtin.encodeURIComponent key) ;;
  ret {| UploadResult.key := key;
         UploadResult.url := object_url enc;
         UploadResult.contentType := ct;
         UploadResult.size := File.size file |}.

(** The body of the [recent.map(async item => ..)] callback. *)
Definition sign_item (expiresIn : Z) (item : S3.object) : M Entry.t :=
  url <- getSignedUrl (BUCKET cfg) (S3.Key item) expiresIn ;;
  ret {| Entry.key := S3.Key item;
         Entry.size := S3.Size item;
         Entry.lastModified := S3.LastModified item;
         Entry.url := url |}.

(** [listRecentFiles(limit = 5)], s3FileService.js lines 90-119; [None] is
    a call without argument. *)
Definition listRecentFiles (limit : option Z) : M (list Entry.t) :=
  let limit := match limit with Some n => n | None => 5 end in
  data <- send_list (BUCKET cfg) PREFIX 200 ;;
  match S3.Contents data with
  | None => ret []
  | Some contents =>
      let realObjects := List.filter real_object contents in
      let recent := Builtin.slice0 (Builtin.sort by_date_desc realObjects) limit in
      Promise_all (List.map (sign_item 300) recent)
  end.

End WithConfig.
End S3FileService.

(** ** controllers/uploadController.js *)

Module UploadController.
Import S3FileService.

(** [req.file.mimetype.startsWith('video/')]: a missing [mimetype] makes the
    property read throw. *)
Definition mimetype_startsWith (p : jsstring) (f : File.t) : completion bool :=
  match File.mimetype f with
  | Some m => Normal (startsWith p m)
  | None => Throw (TypeError_reading "startsWith")
  end.

(** [uploadVideo(req, res)], the whole body in one try/catch. *)
Definition uploadVideo (cfg : config) (req : request) : prog response :=
  handle
    (let source := X_Client_Source req in
     if differs source (js "stickers-recorder") then
       ret (status_json 400 (VObj [prop "error" (VStr (js "Invalid upload source"))]))
     else
       match file req with
       | None =>
           ret (status_json 400 (VObj [prop "error" (VStr (js "No file uploaded."))]))
       | Some f =>
           video <- lift (mimetype_startsWith (js "video/") f) ;;
           if negb video then
             ret (status_json 400 (VObj [prop "error" (VStr (js "File must be a video."))]))
           else
             result <- uploadVideoToS3 cfg f ;;
             ret (json (VObj [prop "message" (VStr (js "Upload successful"));
                              prop "key" (VStr (UploadResult.key result));
                              prop "url" (VStr (UploadResult.url result));
                              prop "contentType"
                                (str_or_undefined (UploadResult.contentType result));
                              prop "size" (VNum (UploadResult.size result));
                              prop "source" (str_or_undefined source)]))
       end)
    (fun err =>
       status_json 500 (VObj [prop "error" (VStr (js "Upload failed"));
                              prop "details" (VStr (message err))])).

End UploadController.

(** ** controllers/fileController.js *)

Module FileController.
Import S3FileService.

(** [getFiles(req, res)] *)
Definition getFiles (cfg : config) : prog response :=
  handle
    (files <- listRecentFiles cfg (Some 5) ;;
     ret (json (VObj [prop "count" (VNum (Z.of_nat (List.length files)));
                      prop "files" (VArr (List.map Entry.to_val files))])))
    (fun err =>
       status_json 500 (VObj [prop "error" (VStr (js "Failed to list files"));
                              prop "details" (VStr (message err))])).

End FileController.

(** ** The monolithic server.js: the same three routes in one file *)

Module Server.
Import S3FileService(contents_or_empty, real_object, by_date_desc).

Definition PREFIX : jsstring := js "uploads/".

(** [err?.message || String(err)] *)
Definition message_or_string (err : error) : jsstring :=
  str_or (Some (message err)) (error_toString err).

Section WithConfig.
Context (cfg : config).

(** [app.get('/debug/s3', ..)], server.js lines 40-90. *)
Definition debug_s3 : M response :=
  step1 <-
    try_catch
      (head <- send_head (BUCKET cfg) ;;
       ret (VObj [prop "step" (VStr (js "HeadBucket"));
                  prop "ok" (VBool true);
                  prop "httpStatus"
                    (or_else (num_or_undefined (S3.head_httpStatusCode head)) VNull)]))
      (fun err =>
       ret (VObj [prop "step" (VStr (js "HeadBucket"));
                  prop "ok" (VBool false);
                  prop "code" (VStr (name err));
                  prop "message" (VStr (message err));
                  prop "httpStatus"
                    (or_else (num_or_undefined (httpStatusCode err)) VNull)])) ;;
  step2 <-
    try_catch
      (listing <- send_list (BUCKET cfg) PREFIX 5 ;;
       ret (VObj [prop "step" (VStr (js "ListObjectsV2"));
                  prop "ok" (VBool true);
                  prop "httpStatus" (num_or_undefined (S3.list_httpStatusCode listing));
                  prop "count" (VNum (Z.of_nat (List.length (contents_or_empty listing))));
                  prop "keys" (VArr (List.map (fun o => str_or_undefined (S3.Key o))
                                              (contents_or_empty listing)))]))
      (fun err =>
       ret (VObj [prop "step" (VStr (js "ListObjectsV2"));
                  prop "ok" (VBool false);
                  prop "code" (VStr (name err));
                  prop "message" (VStr (message err));
                  prop "httpStatus"
                    (or_else (num_or_undefined (httpStatusCode err)) VNull)])) ;;
  ret (json (VObj [prop "region" (VStr (AWS_REGION cfg));
                   prop "bucket" (VStr (BUCKET cfg));
                   prop "steps" (VArr [step1; step2])])).

Definition object_key (now : Z) (sanitized : jsstring) : jsstring :=
  PREFIX ++ of_int now ++ js "-" ++ sanitized.

Definition object_url (enc : jsstring) : jsstring :=
  js "https://" ++ BUCKET cfg ++ js ".s3." ++ AWS_REGION cfg
  ++ js ".amazonaws.com/" ++ enc.

(** [app.post('/upload', upload.single('video'), ..)], server.js lines
    97-157. *)
Definition upload (req : request) : prog response :=
  handle
    (let clientSource := X_Client_Source req in
     if differs clientSource (js "stickers-recorder") then
       ret (status_json 400 (VObj [prop "error" (VStr (js "Invalid upload source"))]))
     else
       match file req with
       | None =>
           ret (status_json 400
                  (VObj [prop "error"
                           (VStr (js "No file uploaded (expected field "
                                  ++ [dquote] ++ js "video" ++ [dquote] ++ js ")."))]))
       | Some f =>
           let ct := str_or (File.mimetype f) [] in
           if negb (startsWith (js "video/") ct) then
             ret (status_json 400
                    (VObj [prop "error" (VStr (js "Invalid content type: " ++ ct))]))
           else
             let original :=
               str_or (File.originalname f)
                      (if includes (js "mp4") ct then js "video.mp4" else js "video.webm") in
             let sanitized := replace_ws original in
             now <- Date_now ;;
             let key := object_key now sanitized in
             _ <- upload_done {| S3.Bucket := BUCKET cfg;
                                 S3.UploadKey := key;
                                 S3.Body := File.buffer f;
                                 S3.ContentType := Some ct;
                                 S3.leavePartsOnError := Some false |} ;;
             enc <- lift (Builtin.encodeURIComponent key) ;;
             ret (json (VObj [prop "message" (VStr (js "Upload successful"));
                              prop "key" (VStr key);
                              prop "url" (VStr (object_url enc));
                              prop "contentType" (VStr ct);
                              prop "size" (VNum (File.size f));
                              prop "source" (str_or_undefined clientSource)]))
       end)
    (fun err =>
       status_json 500 (VObj [prop "error" (VStr (js "Upload failed"));
                              prop "details" (VStr (message_or_string err))])).

Definition sign_item (expiresIn : Z) (item : S3.object) : M S3FileService.Entry.t :=
  url <- getSignedUrl (BUCKET cfg) (S3.Key item) expiresIn ;;
  ret {| S3FileService.Entry.key := S3.Key item;
         S3FileService.Entry.size := S3.Size item;
         S3FileService.Entry.lastModified := S3.LastModified item;
         S3FileService.Entry.url := url |}.

(** [app.get('/files', ..)], server.js lines 164-208; the first answer is
    the one of
    [!data.Contents || data.Contents.length === 0]. *)
Definition files : prog response :=
  handle
    (data <- send_list (BUCKET cfg) PREFIX 200 ;;
     let no_files :=
       ret (json (VObj [prop "message" (VStr (js "No files found in uploads/"));
                        prop "bucket" (VStr (BUCKET cfg))])) in
     match S3.Contents data with
     | None => no_files
     | Some [] => no_files
     | Some contents =>
         let realObjects := List.filter real_object contents in
         let recent := Builtin.slice0 (Builtin.sort by_date_desc realObjects) 5 in
         files <- Promise_all (List.map (sign_item (60 * 5)) recent) ;;
         ret (json (VObj [prop "count" (VNum (Z.of_nat (List.length files)));
                          prop "bucket" (VStr (BUCKET cfg));
                          prop "prefix" (VStr PREFIX);
                          prop "files" (VArr (List.map S3FileService.Entry.to_val files))]))
     end)
    (fun err =>
       status_json 500 (VObj [prop "error" (VStr (js "Failed to list files"));
                              prop "code" (or_else (VStr (name err)) (VStr []));
                              prop "details" (VStr (message_or_string err));
                              prop "bucket" (VStr (BUCKET cfg));
                              prop "prefix" (VStr PREFIX)])).

End WithConfig.
End Server.

(** ** The specification's wording, to compare the code with *)

Module Spec.

(** The maximal runs of a string: consecutive code units of one class
    (white space or not), each run as long as it can be. *)
Fixpoint runs (s : jsstring) : list (bool * jsstring) :=
  match s with
  | [] => []
  | c :: t =>
      match runs t with
      | (b, r) :: rest =>
          if Bool.eqb b (is_space c) then (b, c :: r) :: rest
          else (is_space c, [c]) :: (b, r) :: rest
      | [] => [(is_space c, [c])]
      end
  end.

(** "sanitize replaces every maximal run of whitespace characters with a
    single underscore". *)
Definition sanitize (s : jsstring) : jsstring :=
  flat_map (fun r : bool * jsstring => if fst r then [underscore] else snd r)
           (runs s).

(** "uploads/" + T + "-" + sanitize(N) *)
Definition storage_key (T : Z) (N : jsstring) : jsstring :=
  js "uploads/" ++ of_int T ++ js "-" ++ sanitize N.

(** The fixed literal that identifies the trusted client. *)
Definition trusted_client : jsstring := js "stickers-recorder".

(** "by last-modified time in descending order" *)
Definition newest_first (l : list S3.object) : Prop :=
  StronglySorted (fun a b => S3.LastModified b <= S3.LastModified a) l.

(** "ties broken by storage-service-returned order": the objects of one
    instant keep the order the listing gave them. *)
Definition keeps_order_of_ties (sorted listed : list S3.object) : Prop :=
  forall t : Z,
    List.filter (fun o => S3.LastModified o =? t) sorted
    = List.filter (fun o => S3.LastModified o =? t) listed.

(** The fields of a step of the diagnostics report. *)
Definition failing_step_fields : list string :=
  ["step"; "ok"; "code"; "message"; "httpStatus"]%string.

Definition failing_step_fields_of_service : list string :=
  ["step"; "ok"; "code"; "message"]%string.

Definition bucket_check_fields : list string :=
  ["step"; "ok"; "httpStatus"]%string.

(** An object that stays in the listing: it has a key (a key of S3 has at
    least one character) and a size greater than 0. *)
Definition has_key_and_size (o : S3.object) : Prop :=
  (exists k, S3.Key o = Some k /\ k <> [])
  /\ (exists n, S3.Size o = Some n /\ 0 < n).

(** The listed object an entry of the result stands for. *)
Definition object_of (e : S3FileService.Entry.t) : S3.object :=
  {| S3.Key := S3FileService.Entry.key e;
     S3.Size := S3FileService.Entry.size e;
     S3.LastModified := S3FileService.Entry.lastModified e |}.

(** A world whose signer never fails. *)
Definition signer_works (w : world) : Prop :=
  forall b k e (s : state w),
    exists u, fst (respond w (S3.GetSignedUrl b k e) s) = Normal u.

End Spec.

(** The keys of the uploads a run started. *)
Definition uploaded_keys (cs : list S3.call) : list jsstring :=
  flat_map (fun c : S3.call =>
              match c return list jsstring with
              | S3.UploadDone o => [S3.UploadKey o]
              | _ => []
              end) cs.

(** The signing requests of a run: the key and the expiry of each. *)
Definition signing_requests (cs : list S3.call) : list (option jsstring * Z) :=
  flat_map (fun c : S3.call =>
              match c return list (option jsstring * Z) with
              | S3.GetSignedUrl _ k e => [(k, e)]
              | _ => []
              end) cs.

(** ** Concrete worlds and requests, to evaluate the handlers on *)

Module Sample.

Definition cfg : config :=
  {| BUCKET := js "pod-videos"; AWS_REGION := js "ap-southeast-1" |}.

(** A world that answers every call from a fixed script. *)
Record script : Type := {
  clock : Z;
  head : completion S3.head_output;
  listing : completion S3.list_output;
  upload : completion unit;
  signer : option jsstring -> Z -> completion jsstring
}.

Definition scripted (sc : script) : world :=
  {| state := unit;
     respond := fun c _ =>
       (match c return S3.answer c with
        | S3.HeadBucketCommand _ => head sc
        | S3.ListObjectsV2Command _ _ _ => listing sc
        | S3.UploadDone _ => upload sc
        | S3.GetSignedUrl _ k e => signer sc k e
        | S3.DateNow => clock sc
        end, tt);
     first_rejected := fun _ _ => 0%nat |}.

(** The same world, with the rejection that arrives first chosen by
    [pick]. *)
Definition racing (pick : nat -> nat) (sc : script) : world :=
  {| state := unit;
     respond := respond (scripted sc);
     first_rejected := fun _ n => pick n |}.

(** A signer that refuses every key, naming the key in its message. *)
Definition sign_refused (k : option jsstring) (e : Z) : completion jsstring :=
  Throw {| name := js "SignError"; message := str_or k []; httpStatusCode := None |}.

Definition sign_ok (k : option jsstring) (e : Z) : completion jsstring :=
  Normal (js "https://signed/" ++ str_or k [] ++ js "?expires=" ++ of_int e).

Definition AccessDenied : error :=
  {| name := js "AccessDenied"; message := js "Access Denied";
     httpStatusCode := Some 403 |}.

Definition obj (k : string) (sz t : Z) : S3.object :=
  {| S3.Key := Some (js k); S3.Size := Some sz; S3.LastModified := t |}.

(** Ten objects with distinct dates and positive sizes, and the folder
    marker of size 0. *)
Definition ten_objects : list S3.object :=
  [obj "uploads/" 0 99; obj "uploads/a" 10 1004; obj "uploads/b" 11 1009;
   obj "uploads/c" 12 1001; obj "uploads/d" 13 1007; obj "uploads/e" 14 1003;
   obj "uploads/f" 15 1010; obj "uploads/g" 16 1002; obj "uploads/h" 17 1006;
   obj "uploads/i" 18 1005; obj "uploads/j" 19 1008].

Definition healthy (contents : option (list S3.object)) : script :=
  {| clock := 1700000000000;
     head := Normal {| S3.head_httpStatusCode := Some 200 |};
     listing := Normal {| S3.Contents := contents;
                          S3.list_httpStatusCode := Some 200 |};
     upload := Normal tt;
     signer := sign_ok |}.

(** The bucket check fails, the listing works. *)
Definition no_head_access : script :=
  {| clock := 1700000000000;
     head := Throw AccessDenied;
     listing := Normal {| S3.Contents := Some [obj "uploads/a" 10 1004];
                          S3.list_httpStatusCode := Some 200 |};
     upload := Normal tt;
     signer := sign_ok |}.

(** Every call to S3 fails. *)
Definition unreachable : script :=
  {| clock := 1700000000000;
     head := Throw AccessDenied;
     listing := Throw AccessDenied;
     upload := Throw AccessDenied;
     signer := fun _ _ => Throw AccessDenied |}.

Definition video (name : option jsstring) (type : option jsstring) : File.t :=
  {| File.mimetype := type;
     File.originalname := name;
     File.buffer := [Byte.x00; Byte.x01];
     File.size := 2 |}.

Definition request_of (source : option jsstring) (f : option File.t) : request :=
  {| X_Client_Source := source; file := f |}.

End Sample.

(** ** Shapes of strings and of call traces *)

Module Shape.

(** A code unit has 16 bits. *)
Definition code_unit (c : N) : bool := (c <? 65536)%N.

(** Half of a surrogate pair. *)
Definition is_surrogate (c : N) : bool :=
  Builtin.is_high_surrogate (Z.of_N c) || Builtin.is_low_surrogate (Z.of_N c).

(** What a percent-encoded string is made of: the unreserved code units
    (the hexadecimal digits are among them) and the percent sign. *)
Definition url_safe (c : N) : bool :=
  Builtin.uri_unreserved (Z.of_N c) || (c =? 37)%N.

(** What a decimal numeral is made of: digits and the minus sign. *)
Definition numeral_char (c : N) : bool :=
  ((48 <=? c) && (c <=? 57))%N || (c =? 45)%N.

(** The uploads a run started, with their options. *)
Definition uploads (cs : list S3.call) : list S3.upload_options :=
  flat_map (fun c : S3.call =>
              match c return list S3.upload_options with
              | S3.UploadDone o => [o]
              | _ => []
              end) cs.

(** The base of the URL an upload answers with. *)
Definition bucket_host (cfg : config) : jsstring :=
  js "https://" ++ BUCKET cfg ++ js ".s3." ++ AWS_REGION cfg
  ++ js ".amazonaws.com/".

(** A request the upload handlers let through: the trusted header, a file
    [f], and a declared MIME type [m] that starts with video/. *)
Definition accepted (req : request) (f : File.t) (m : jsstring) : Prop :=
  X_Client_Source req = Some Spec.trusted_client
  /\ file req = Some f
  /\ File.mimetype f = Some m
  /\ exists rest, m = js "video/" ++ rest.

(** The value of an upper-case hexadecimal digit. *)
Definition hex_value (c : N) : option Z :=
  let z := Z.of_N c in
  if (48 <=? z) && (z <=? 57) then Some (z - 48)
  else if (65 <=? z) && (z <=? 70) then Some (z - 55)
  else None.

(** Reading a percent-encoded string back into bytes: an unreserved code
    unit stands for itself, a percent sign starts an escape of two
    hexadecimal digits, and anything else is refused. *)
Fixpoint unescape (s : jsstring) : option (list Z) :=
  match s with
  | [] => Some []
  | c :: t =>
      if (c =? 37)%N then
        match t with
        | h :: l :: t' =>
            match hex_value h, hex_value l, unescape t' with
            | Some a, Some b, Some bs => Some (16 * a + b :: bs)
            | _, _, _ => None
            end
        | _ => None
        end
      else if Builtin.uri_unreserved (Z.of_N c) then
        option_map (cons (Z.of_N c)) (unescape t)
      else None
  end.

(** A continuation byte of UTF-8. *)
Definition continuation (b : Z) : bool := (128 <=? b) && (b <? 192).

(** The code units of a code point: itself, or a surrogate pair. *)
Definition code_units (cp : Z) : jsstring :=
  if cp <? 65536 then [Z.to_N cp]
  else [Z.to_N (55296 + (cp - 65536) / 1024);
        Z.to_N (56320 + (cp - 65536) mod 1024)].

(** Reading UTF-8 bytes back into code units. *)
Fixpoint utf8_decode (bs : list Z) : option jsstring :=
  match bs with
  | [] => Some []
  | b :: t =>
      if b <? 128 then option_map (app (code_units b)) (utf8_decode t)
      else if b <? 192 then None
      else if b <? 224 then
        match t with
        | b1 :: t' =>
            if continuation b1 then
              option_map (app (code_units ((b - 192) * 64 + (b1 - 128))))
                         (utf8_decode t')
            else None
        | _ => None
        end
      else if b <? 240 then
        match t with
        | b1 :: b2 :: t' =>
            if continuation b1 && continuation b2 then
              option_map
                (app (code_units ((b - 224) * 4096 + (b1 - 128) * 64 + (b2 - 128))))
                (utf8_decode t')
            else None
        | _ => None
        end
      else
        match t with
        | b1 :: b2 :: b3 :: t' =>
            if continuation b1 && continuation b2 && continuation b3 then
              option_map
                (app (code_units ((b - 240) * 262144 + (b1 - 128) * 4096
                                  + (b2 - 128) * 64 + (b3 - 128))))
                (utf8_decode t')
            else None
        | _ => None
        end
  end.

(** Decoding a percent-encoded string: the escapes into bytes, the bytes
    into code units. *)
Definition decode (s : jsstring) : option jsstring :=
  match unescape s with
  | Some bs => utf8_decode bs
  | None => None
  end.

(** A key inside the uploads/ folder that holds no white space. *)
Definition scoped_key (k : jsstring) : Prop :=
  (exists rest, k = js "uploads/" ++ rest)
  /\ Forall (fun c => is_space c = false) k.

End Shape.

(** * Theorems *)

(** ** The model evaluated on concrete inputs *)

Example replace_ws_runs :
  replace_ws (JsString.js "  my 	clip  final.mp4 ") = JsString.js "_my_clip_final.mp4_".
Proof. reflexivity. Qed.

Example replace_ws_no_break_space :
  replace_ws [97; 160; 8195; 98]%N = JsString.js "a_b".
Proof. reflexivity. Qed.

Example slice0_negative_end : Builtin.slice0 [1; 2; 3] (-1) = [1; 2].
Proof. reflexivity. Qed.

Example encodeURIComponent_key :
  Builtin.encodeURIComponent (js "uploads/1700000000000-my_clip.mp4")
  = Normal (js "uploads%2F1700000000000-my_clip.mp4").
Proof. reflexivity. Qed.

Example encodeURIComponent_lone_surrogate :
  Builtin.encodeURIComponent [97; 55357]%N = Throw URIError_malformed.
Proof. reflexivity. Qed.

Example upload_accepted :
  exec (Sample.scripted (Sample.healthy None))
       (UploadController.uploadVideo Sample.cfg
          (Sample.request_of (Some (js "stickers-recorder"))
             (Some (Sample.video (Some (js "my clip.mp4")) (Some (js "video/mp4"))))))
       tt
  = ([S3.DateNow;
      S3.UploadDone
        {| S3.Bucket := js "pod-videos";
           S3.UploadKey := js "uploads/1700000000000-my_clip.mp4";
           S3.Body := [Byte.x00; Byte.x01];
           S3.ContentType := Some (js "video/mp4");
           S3.leavePartsOnError := None |}],
     json (VObj
       [prop "message" (VStr (js "Upload successful"));
        prop "key" (VStr (js "uploads/1700000000000-my_clip.mp4"));
        prop "url"
          (VStr (js "https://pod-videos.s3.ap-southeast-1.amazonaws.com/uploads%2F1700000000000-my_clip.mp4"));
        prop "contentType" (VStr (js "video/mp4"));
        prop "size" (VNum 2);
        prop "source" (VStr (js "stickers-recorder"))]),
     tt).
Proof. vm_compute. reflexivity. Qed.

Example server_upload_default_name :
  uploaded_keys
    (calls (Sample.scripted (Sample.healthy None))
       (Server.upload Sample.cfg
          (Sample.request_of (Some (js "stickers-recorder"))
             (Some (Sample.video None (Some (js "video/webm")))))) tt)
  = [js "uploads/1700000000000-video.webm"].
Proof. vm_compute. reflexivity. Qed.

Example probe_without_head_access :
  result (Sample.scripted Sample.no_head_access)
         (S3FileService.debugS3Connectivity Sample.cfg) tt
  = Normal (VObj
      [prop "region" (VStr (js "ap-southeast-1"));
       prop "bucket" (VStr (js "pod-videos"));
       prop "steps"
         (VArr [VObj [prop "step" (VStr (js "HeadBucket"));
                      prop "ok" (VBool false);
                      prop "code" (VStr (js "AccessDenied"));
                      prop "message" (VStr (js "Access Denied"))];
                VObj [prop "step" (VStr (js "ListObjectsV2"));
                      prop "ok" (VBool true);
                      prop "count" (VNum 1);
                      prop "keys" (VArr [VStr (js "uploads/a")])]])]).
Proof. vm_compute. reflexivity. Qed.

Example first_rejection_in_time_wins :
  let sc := {| Sample.clock := 0;
               Sample.head := Throw Sample.AccessDenied;
               Sample.listing :=
                 Normal {| S3.Contents := Some [Sample.obj "uploads/a" 10 1004;
                                                Sample.obj "uploads/b" 11 1009];
                           S3.list_httpStatusCode := Some 200 |};
               Sample.upload := Normal tt;
               Sample.signer := Sample.sign_refused |} in
  List.map
    (fun pick =>
       match result (Sample.racing pick sc)
                    (S3FileService.listRecentFiles Sample.cfg (Some 5)) tt with
       | Normal _ => []
       | Throw e => message e
       end)
    [(fun _ => 0%nat); (fun n => n)]
  = [js "uploads/b"; js "uploads/a"].
Proof. vm_compute. reflexivity. Qed.

Example three_most_recent_of_ten :
  List.map (fun e => (S3FileService.Entry.key e, S3FileService.Entry.lastModified e))
    match result (Sample.scripted (Sample.healthy (Some Sample.ten_objects)))
                 (S3FileService.listRecentFiles Sample.cfg (Some 3)) tt with
    | Normal entries => entries
    | Throw _ => []
    end
  = [(Some (js "uploads/f"), 1010); (Some (js "uploads/b"), 1009);
     (Some (js "uploads/j"), 1008)].
Proof. vm_compute. reflexivity. Qed.

(** ** Running programs *)

Lemma exec_bind {A B} (w : world) (m : prog A) (f : A -> prog B) (s : state w) :
  exec w (bind m f) s =
  let '(c1, a, s1) := exec w m s in
  let '(c2, b, s2) := exec w (f a) s1 in
  (c1 ++ c2, b, s2).
Proof.
  revert s. induction m as [a | c k IH | n k IH]; intros s; simpl.
  - destruct (exec w (f a) s) as [[c2 b] s2]. reflexivity.
  - destruct (respond w c s) as [r s']. rewrite IH.
    destruct (exec w (k r) s') as [[c1 a] s1].
    destruct (exec w (f a) s1) as [[c2 b] s2]. reflexivity.
  - apply IH.
Qed.

Lemma exec_handle (w : world) (m : M response) (h : error -> response)
    (s : state w) :
  exec w (handle m h) s =
  let '(cs, r, s') := exec w m s in
  (cs, match r with Normal a => a | Throw e => h e end, s').
Proof.
  unfold handle. rewrite exec_bind.
  destruct (exec w m s) as [[cs r] s'].
  destruct r; simpl; rewrite app_nil_r; reflexivity.
Qed.

Lemma exec_seq {A B} (w : world) (m : M A) (f : A -> M B) (s : state w) :
  exec w (seq m f) s =
  let '(c1, r, s1) := exec w m s in
  match r with
  | Normal a => let '(c2, b, s2) := exec w (f a) s1 in (c1 ++ c2, b, s2)
  | Throw e => (c1, Throw e, s1)
  end.
Proof.
  unfold seq. rewrite exec_bind.
  destruct (exec w m s) as [[c1 [a|e]] s1]; [reflexivity|].
  simpl. now rewrite app_nil_r.
Qed.

Lemma seq_lift {A B} (c : completion A) (f : A -> M B) :
  seq (lift c) f = match c with Normal a => f a | Throw e => throw e end.
Proof. destruct c; reflexivity. Qed.

(** ** White space runs *)

Section Sanitize.

Lemma runs_head (c : N) (t : jsstring) :
  exists r rest, Spec.runs (c :: t) = (is_space c, c :: r) :: rest.
Proof.
  simpl. destruct (Spec.runs t) as [|[b r] rest].
  - exists [], []. reflexivity.
  - destruct (Bool.eqb b (is_space c)) eqn:E.
    + apply eqb_prop in E. subst b. exists r, rest. reflexivity.
    + exists [], ((b, r) :: rest). reflexivity.
Qed.

(** The runs cut the string: glued back together they give it again. *)
Lemma runs_concat (s : jsstring) :
  flat_map snd (Spec.runs s) = s.
Proof.
  induction s as [|c t IH]; [reflexivity|]. simpl.
  destruct (Spec.runs t) as [|[b r] rest].
  - simpl in *. now rewrite <- IH.
  - destruct (Bool.eqb b (is_space c)); simpl in *; now rewrite IH.
Qed.

(** Every run is non-empty and of one class. *)
Lemma runs_uniform (s : jsstring) :
  Forall (fun run => snd run <> [] /\
                     Forall (fun c => is_space c = fst run) (snd run))
         (Spec.runs s).
Proof.
  induction s as [|c t IH]; [constructor|]. simpl.
  destruct (Spec.runs t) as [|[b r] rest].
  - repeat constructor. discriminate.
  - inversion IH as [|x l [Hne Hall] Hrest]; subst.
    destruct (Bool.eqb b (is_space c)) eqn:E.
    + apply eqb_prop in E. constructor; [split|assumption]; simpl.
      * discriminate.
      * constructor; [now symmetry|assumption].
    + constructor; [split; simpl; [discriminate | now repeat constructor]|].
      constructor; [split; assumption | assumption].
Qed.

(** Every run is maximal: its neighbour is of the other class. *)
Lemma runs_alternate (s : jsstring) :
  forall pre a b post,
    Spec.runs s = pre ++ a :: b :: post -> fst a <> fst b.
Proof.
  induction s as [|c t IH]; intros pre a b post E.
  - destruct pre; discriminate.
  - simpl in E. destruct (Spec.runs t) as [|[b0 r0] rest] eqn:Ert.
    + destruct pre as [|? [|? ?]]; discriminate.
    + destruct (Bool.eqb b0 (is_space c)) eqn:Eb.
      * destruct pre as [|p pre].
        -- injection E as Ea Er. subst a rest. simpl.
           apply (IH [] (b0, r0) b post). reflexivity.
        -- injection E as Ep Er. apply (IH ((b0, r0) :: pre) a b post).
           now rewrite Er.
      * destruct pre as [|p pre].
        -- injection E as Ea Eb' Er. subst a b. simpl.
           apply eqb_false_iff in Eb. congruence.
        -- injection E as Ep Er. apply (IH pre a b post). exact Er.
Qed.

Lemma runs_cons (c : N) (t : jsstring) :
  Spec.runs (c :: t) =
  match Spec.runs t with
  | (b, r) :: rest =>
      if Bool.eqb b (is_space c) then (b, c :: r) :: rest
      else (is_space c, [c]) :: (b, r) :: rest
  | [] => [(is_space c, [c])]
  end.
Proof. reflexivity. Qed.

Lemma sanitize_space (c : N) (t : jsstring) :
  is_space c = true ->
  Spec.sanitize (c :: t) = underscore :: Spec.sanitize (dropWhile is_space t).
Proof.
  intros Hc. revert c Hc. induction t as [|d u IH]; intros c Hc.
  - unfold Spec.sanitize. simpl. rewrite Hc. reflexivity.
  - destruct (runs_head d u) as (r & rest & E).
    specialize (IH d). unfold Spec.sanitize in *.
    rewrite (runs_cons c (d :: u)).
    change (dropWhile is_space (d :: u))
      with (if is_space d then dropWhile is_space u else d :: u).
    rewrite E in *. rewrite Hc.
    destruct (is_space d) eqn:Hd.
    + specialize (IH eq_refl). cbn [flat_map fst snd app Bool.eqb] in *.
      exact IH.
    + rewrite E. reflexivity.
Qed.

Lemma sanitize_other (c : N) (t : jsstring) :
  is_space c = false ->
  Spec.sanitize (c :: t) = c :: Spec.sanitize t.
Proof.
  intros Hc. unfold Spec.sanitize. simpl.
  destruct (Spec.runs t) as [|[b r] rest]; simpl.
  - rewrite Hc. reflexivity.
  - rewrite Hc. destruct b; simpl; reflexivity.
Qed.

(** The replacement the code performs is the sanitizing of the spec. *)
Lemma replace_ws_sanitize (s : jsstring) :
  replace_ws s = Spec.sanitize s.
Proof.
  funelim (replace_ws s).
  - reflexivity.
  - rewrite sanitize_space by assumption. now f_equal.
  - rewrite sanitize_other by assumption. now f_equal.
Qed.

End Sanitize.

(** ** The storage key of an upload *)

Ltac answer_call :=
  match goal with
  | |- context [respond ?w ?c ?s] =>
      let r := fresh "r" in
      let s' := fresh "s" in
      destruct (respond w c s) as [r s'] eqn:?
  end.

Section UploadKey.
Import S3FileService.

Lemma str_or_named (N d : jsstring) : N <> [] -> str_or (Some N) d = N.
Proof. destruct N; [congruence | reflexivity]. Qed.

Lemma service_key_spec (T : Z) (N d : jsstring) :
  N <> [] ->
  S3FileService.object_key T (replace_ws (str_or (Some N) d)) = Spec.storage_key T N.
Proof.
  intros H. rewrite str_or_named by assumption.
  now rewrite replace_ws_sanitize.
Qed.

Lemma server_key_spec (T : Z) (N d : jsstring) :
  N <> [] ->
  Server.object_key T (replace_ws (str_or (Some N) d)) = Spec.storage_key T N.
Proof.
  intros H. rewrite str_or_named by assumption.
  now rewrite replace_ws_sanitize.
Qed.

Lemma uploadVideoToS3_key (cfg : config) (w : world) (s : state w) (f : File.t) :
  let key := S3FileService.object_key (fst (respond w S3.DateNow s))
               (replace_ws (str_or (File.originalname f) (js "video.mp4"))) in
  uploaded_keys (calls w (uploadVideoToS3 cfg f) s) = [key]
  /\ forall r, result w (uploadVideoToS3 cfg f) s = Normal r ->
               UploadResult.key r = key.
Proof.
  unfold uploadVideoToS3, calls, result.
  cbn -[replace_ws js of_int Builtin.encodeURIComponent S3FileService.object_key].
  destruct (respond w S3.DateNow s) as [t s1].
  cbn -[replace_ws js of_int Builtin.encodeURIComponent S3FileService.object_key].
  answer_call.
  destruct r as [[]|e];
    cbn -[replace_ws js of_int Builtin.encodeURIComponent S3FileService.object_key].
  - destruct (Builtin.encodeURIComponent _);
      cbn -[replace_ws js of_int S3FileService.object_key];
      (split; [reflexivity|]); intros r H; inversion H; reflexivity.
  - split; [reflexivity|]. intros r H; inversion H.
Qed.


Lemma uploadVideo_key (cfg : config) (w : world) (s : state w)
    (req : request) (f : File.t) :
  file req = Some f ->
  let key := S3FileService.object_key (fst (respond w S3.DateNow s))
               (replace_ws (str_or (File.originalname f) (js "video.mp4"))) in
  let r := result w (UploadController.uploadVideo cfg req) s in
  status r = 200 ->
  uploaded_keys (calls w (UploadController.uploadVideo cfg req) s) = [key]
  /\ Js.get "key" (body r) = Some (VStr key).
Proof.
  intros Hf key r. subst r. unfold calls, result, UploadController.uploadVideo.
  rewrite exec_handle, Hf.
  destruct (differs _ _); [cbn; discriminate|].
  unfold UploadController.mimetype_startsWith.
  destruct (File.mimetype f) as [m|]; [|cbn; discriminate].
  rewrite seq_lift.
  destruct (startsWith _ m); cbn [negb]; [|cbn; discriminate].
  rewrite exec_seq.
  destruct (uploadVideoToS3_key cfg w s f) as [Hk Hr].
  unfold calls, result in Hk, Hr.
  destruct (exec w (uploadVideoToS3 cfg f) s) as [[c1 [a|e]] s1];
    cbn [fst snd] in *.
  - intros _. cbn. rewrite app_nil_r. split; [exact Hk|].
    now rewrite (Hr a eq_refl).
  - cbn. discriminate.
Qed.

Lemma server_upload_key (cfg : config) (w : world) (s : state w)
    (req : request) (f : File.t) :
  file req = Some f ->
  let ct := str_or (File.mimetype f) [] in
  let key := Server.object_key (fst (respond w S3.DateNow s))
               (replace_ws
                  (str_or (File.originalname f)
                     (if includes (js "mp4") ct then js "video.mp4"
                      else js "video.webm"))) in
  let r := result w (Server.upload cfg req) s in
  status r = 200 ->
  uploaded_keys (calls w (Server.upload cfg req) s) = [key]
  /\ Js.get "key" (body r) = Some (VStr key).
Proof.
  intros Hf ct key r. subst r. unfold calls, result, Server.upload.
  rewrite exec_handle, Hf.
  destruct (differs _ _); [cbn; discriminate|].
  fold ct. destruct (startsWith _ ct); cbn [negb]; [|cbn; discriminate].
  cbn -[replace_ws js of_int Builtin.encodeURIComponent Server.object_key
        Server.object_url includes].
  destruct (respond w S3.DateNow s) as [t s1].
  cbn -[replace_ws js of_int Builtin.encodeURIComponent Server.object_key
        Server.object_url includes].
  answer_call.
  destruct r as [[]|e];
    cbn -[replace_ws js of_int Builtin.encodeURIComponent Server.object_key
          Server.object_url includes].
  - destruct (Builtin.encodeURIComponent _);
      cbn -[replace_ws js of_int Server.object_key Server.object_url includes].
    + intros _. split; reflexivity.
    + discriminate.
  - discriminate.
Qed.

End UploadKey.



(** ** Sorting, newest first *)

Section Sorting.
Import S3FileService.

Lemma insert_by_perm {A} (cmp : A -> A -> Z) (x : A) (l : list A) :
  Permutation (Builtin.insert_by cmp x l) (x :: l).
Proof.
  induction l as [|y t IH]; simpl; [reflexivity|].
  destruct (cmp x y <=? 0); [reflexivity|].
  rewrite IH. apply perm_swap.
Qed.

Lemma sort_perm {A} (cmp : A -> A -> Z) (l : list A) :
  Permutation (Builtin.sort cmp l) l.
Proof.
  induction l as [|x t IH]; simpl; [reflexivity|].
  rewrite insert_by_perm. now constructor.
Qed.

Lemma insert_newest_first (x : S3.object) (l : list S3.object) :
  Spec.newest_first l ->
  Spec.newest_first (Builtin.insert_by by_date_desc x l).
Proof.
  unfold Spec.newest_first.
  induction l as [|y t IH]; intros Hs; simpl.
  - repeat constructor.
  - inversion Hs as [|? ? Ht Hy]; subst.
    unfold by_date_desc at 1.
    destruct (Z.leb_spec (S3.LastModified y - S3.LastModified x) 0) as [Hle|Hgt].
    + constructor; [assumption|]. constructor; [lia|].
      eapply Forall_impl; [|exact Hy]. simpl. intros z Hz. lia.
    + constructor; [now apply IH|].
      eapply Permutation_Forall; [symmetry; apply insert_by_perm|].
      constructor; [lia | assumption].
Qed.

Lemma sort_newest_first (l : list S3.object) :
  Spec.newest_first (Builtin.sort by_date_desc l).
Proof.
  induction l as [|x t IH]; simpl.
  - constructor.
  - now apply insert_newest_first.
Qed.

Lemma insert_keeps_ties (t : Z) (x : S3.object) (l : list S3.object) :
  List.filter (fun o => S3.LastModified o =? t) (Builtin.insert_by by_date_desc x l)
  = List.filter (fun o => S3.LastModified o =? t) (x :: l).
Proof.
  induction l as [|y u IH]; [reflexivity|].
  cbn [Builtin.insert_by]. unfold by_date_desc at 1.
  destruct (Z.leb_spec (S3.LastModified y - S3.LastModified x) 0) as [Hle|Hgt];
    [reflexivity|].
  cbn [List.filter] in *. rewrite IH.
  destruct (Z.eqb_spec (S3.LastModified x) t) as [Hx|Hx];
    destruct (Z.eqb_spec (S3.LastModified y) t) as [Hy|Hy];
    try reflexivity.
  lia.
Qed.

Lemma sort_keeps_ties (l : list S3.object) :
  Spec.keeps_order_of_ties (Builtin.sort by_date_desc l) l.
Proof.
  intros t. induction l as [|x u IH]; [reflexivity|].
  cbn [Builtin.sort fold_right]. fold (Builtin.sort by_date_desc u).
  rewrite insert_keeps_ties. cbn [List.filter]. now rewrite IH.
Qed.

Lemma slice0_firstn {A} (l : list A) (n : nat) :
  Builtin.slice0 l (Z.of_nat n) = firstn n l.
Proof.
  unfold Builtin.slice0.
  destruct (Z.ltb_spec (Z.of_nat n) 0) as [H|H]; [lia|].
  destruct (Nat.le_gt_cases n (List.length l)) as [Hn|Hn].
  - rewrite Z.min_l by lia. now rewrite Nat2Z.id.
  - rewrite Z.min_r by lia. rewrite Nat2Z.id.
    rewrite !firstn_all2 by lia. reflexivity.
Qed.

Lemma skipn_In {A} (n : nat) (l : list A) (x : A) :
  In x (skipn n l) -> In x l.
Proof.
  intros H. rewrite <- (firstn_skipn n l). apply in_or_app. now right.
Qed.

Lemma firstn_In {A} (n : nat) (l : list A) (x : A) :
  In x (firstn n l) -> In x l.
Proof.
  intros H. rewrite <- (firstn_skipn n l). apply in_or_app. now left.
Qed.

(** What stays behind the cut is not newer than what is kept. *)
Lemma newest_first_cut (n : nat) (l : list S3.object) :
  Spec.newest_first l ->
  forall a b, In a (firstn n l) -> In b (skipn n l) ->
              S3.LastModified b <= S3.LastModified a.
Proof.
  unfold Spec.newest_first. revert l.
  induction n as [|n IH]; intros l Hs a b Ha Hb; [destruct Ha|].
  destruct l as [|x t]; [destruct Ha|].
  inversion Hs as [|? ? Ht Hx]; subst. simpl in Ha, Hb.
  destruct Ha as [<-|Ha].
  - rewrite Forall_forall in Hx. apply Hx.
    eapply skipn_In. exact Hb.
  - now apply (IH t).
Qed.

End Sorting.

(** ** Signing the entries of a listing *)

Section Signing.
Import S3FileService.

Lemma server_sign_item (cfg : config) (e : Z) (item : S3.object) :
  Server.sign_item cfg e item = sign_item cfg e item.
Proof. reflexivity. Qed.

Lemma exec_gather_sign (cfg : config) (w : world) (e : Z)
    (items : list S3.object) (s : state w) :
  let '(cs, rs, _) := exec w (gather (List.map (sign_item cfg e) items)) s in
  cs = List.map (fun it => S3.GetSignedUrl (BUCKET cfg) (S3.Key it) e) items
  /\ Forall2 (fun it r => forall en, r = Normal en -> Spec.object_of en = it)
             items rs
  /\ (Spec.signer_works w -> Forall (fun r => is_normal r = true) rs).
Proof.
  revert s. induction items as [|it rest IH]; intros s.
  - cbn. repeat split; constructor.
  - cbn [List.map gather]. rewrite exec_bind.
    unfold sign_item at 1, getSignedUrl, seq. cbn [bind exec].
    destruct (respond w (S3.GetSignedUrl (BUCKET cfg) (S3.Key it) e) s)
      as [r s1] eqn:Er.
    specialize (IH s1).
    destruct r as [u|err]; cbn [exec ret]; rewrite exec_bind;
      destruct (exec w (gather (List.map (sign_item cfg e) rest)) s1)
        as [[cs rs] s2];
      destruct IH as (Hc & Hr & Hn); cbn;
      (split; [now rewrite Hc, app_nil_r|]).
    + split.
      * constructor; [|exact Hr]. intros en Hen. inversion Hen.
        destruct it; reflexivity.
      * intros Hw. constructor; [reflexivity | now apply Hn].
    + split.
      * constructor; [|exact Hr]. intros en Hen. discriminate.
      * intros Hw. exfalso.
        destruct (Hw (BUCKET cfg) (S3.Key it) e s) as [u Hu].
        rewrite Er in Hu. discriminate.
Qed.

Lemma all_fulfilled {A} (rs : list (completion A)) :
  Forall (fun r => is_normal r = true) rs -> rejections rs = [].
Proof.
  induction 1 as [|r rs Hr _ IH]; [reflexivity|].
  destruct r as [a|e]; [exact IH | discriminate].
Qed.

Lemma fulfilled_objects (items : list S3.object)
    (rs : list (completion Entry.t)) :
  Forall2 (fun it r => forall en, r = Normal en -> Spec.object_of en = it) items rs ->
  rejections rs = [] ->
  List.map Spec.object_of (fulfilled rs) = items.
Proof.
  induction 1 as [|it r items rs Hr _ IH]; intros E; [reflexivity|].
  destruct r as [en|e]; [|discriminate]. simpl in *.
  now rewrite (Hr en eq_refl), (IH E).
Qed.

(** What running [settle] gives: no call, the state as it was, and a normal
    completion exactly when nothing was rejected. *)
Lemma exec_settle {A} (w : world) (rs : list (completion A)) (s : state w) :
  exists c, exec w (settle rs) s = ([], c, s)
            /\ (rejections rs = [] -> c = Normal (fulfilled rs))
            /\ (forall l, c = Normal l -> rejections rs = [] /\ l = fulfilled rs).
Proof.
  unfold settle. destruct (rejections rs) as [|e es].
  - eexists. split; [reflexivity|]. split; [reflexivity|].
    intros l E. inversion E. split; reflexivity.
  - eexists. split; [reflexivity|]. split; [discriminate|].
    intros l E. discriminate.
Qed.

(** The listing of the service, call by call. *)
Lemma exec_Promise_all_sign (cfg : config) (w : world) (e : Z)
    (items : list S3.object) (s : state w) :
  calls w (Promise_all (List.map (sign_item cfg e) items)) s
    = List.map (fun it => S3.GetSignedUrl (BUCKET cfg) (S3.Key it) e) items
  /\ (forall entries,
        result w (Promise_all (List.map (sign_item cfg e) items)) s = Normal entries ->
        List.map Spec.object_of entries = items)
  /\ (Spec.signer_works w ->
      exists entries,
        result w (Promise_all (List.map (sign_item cfg e) items)) s = Normal entries).
Proof.
  unfold calls, result, Promise_all. rewrite exec_bind.
  pose proof (exec_gather_sign cfg w e items s) as H.
  destruct (exec w (gather (List.map (sign_item cfg e) items)) s) as [[cs rs] s1].
  destruct H as (Hc & Hr & Hn).
  destruct (exec_settle w rs s1) as (c & Ec & Hok & Hinv). rewrite Ec.
  cbn [fst snd]. rewrite app_nil_r.
  split; [exact Hc|]. split.
  - intros entries E. destruct (Hinv entries E) as [Hrej ->].
    now apply fulfilled_objects.
  - intros Hw. eexists. apply Hok, all_fulfilled, Hn, Hw.
Qed.

End Signing.

(** ** Listing the recent files *)

Section Listing.
Import S3FileService.

Lemma real_object_spec (o : S3.object) :
  real_object o = true <-> Spec.has_key_and_size o.
Proof.
  unfold real_object, Spec.has_key_and_size.
  destruct o as [[[|c k]|] [sz|] t]; cbn; split;
    try (intros H; discriminate H);
    try (intros [[k' [Hk Hne]] [n [Hn Hpos]]]; congruence).
  - intros H. apply Z.ltb_lt in H. split; eexists; split; eauto. discriminate.
  - intros [_ [n [Hn Hpos]]]. inversion Hn. now apply Z.ltb_lt.
Qed.

Lemma listRecentFiles_exec (cfg : config) (w : world) (s s1 : state w)
    (limit : option Z) (data : S3.list_output) (L : list S3.object) :
  respond w (S3.ListObjectsV2Command (BUCKET cfg) PREFIX 200) s = (Normal data, s1) ->
  S3.Contents data = Some L ->
  let recent :=
    Builtin.slice0 (Builtin.sort by_date_desc (List.filter real_object L))
                   (match limit with Some n => n | None => 5 end) in
  calls w (listRecentFiles cfg limit) s
    = S3.ListObjectsV2Command (BUCKET cfg) PREFIX 200
      :: List.map (fun it => S3.GetSignedUrl (BUCKET cfg) (S3.Key it) 300) recent
  /\ (forall entries,
        result w (listRecentFiles cfg limit) s = Normal entries ->
        List.map Spec.object_of entries = recent)
  /\ (Spec.signer_works w ->
      exists entries, result w (listRecentFiles cfg limit) s = Normal entries).
Proof.
  intros Hl HL recent.
  pose proof (exec_Promise_all_sign cfg w 300 recent s1) as H.
  unfold calls, result, listRecentFiles, send_list, seq in *.
  cbn [bind exec]. rewrite Hl. cbn [bind]. rewrite HL. fold recent.
  destruct (exec w (Promise_all (List.map (sign_item cfg 300) recent)) s1)
    as [[cs r] s2].
  cbn [fst snd] in *. destruct H as (Hc & Hr & Hn).
  split; [now rewrite Hc|]. split; assumption.
Qed.

Lemma getFiles_exec (cfg : config) (w : world) (s : state w) :
  calls w (FileController.getFiles cfg) s
    = calls w (listRecentFiles cfg (Some 5)) s
  /\ result w (FileController.getFiles cfg) s
     = match result w (listRecentFiles cfg (Some 5)) s with
       | Normal files =>
           json (VObj [prop "count" (VNum (Z.of_nat (List.length files)));
                       prop "files" (VArr (List.map Entry.to_val files))])
       | Throw err =>
           status_json 500 (VObj [prop "error" (VStr (js "Failed to list files"));
                                  prop "details" (VStr (message err))])
       end.
Proof.
  unfold calls, result, FileController.getFiles.
  rewrite exec_handle, exec_seq.
  destruct (exec w (listRecentFiles cfg (Some 5)) s) as [[cs [files|err]] s1];
    cbn; [rewrite app_nil_r|]; split; reflexivity.
Qed.

(** [GET /files] of server.js when the listing holds something. *)
Lemma server_files_exec (cfg : config) (w : world) (s s1 : state w)
    (data : S3.list_output) (L : list S3.object) :
  respond w (S3.ListObjectsV2Command (BUCKET cfg) Server.PREFIX 200) s
    = (Normal data, s1) ->
  S3.Contents data = Some L ->
  L <> [] ->
  let recent :=
    Builtin.slice0 (Builtin.sort by_date_desc (List.filter real_object L)) 5 in
  calls w (Server.files cfg) s
    = S3.ListObjectsV2Command (BUCKET cfg) Server.PREFIX 200
      :: List.map (fun it => S3.GetSignedUrl (BUCKET cfg) (S3.Key it) (60 * 5)) recent
  /\ result w (Server.files cfg) s
     = match result w (Promise_all (List.map (sign_item cfg (60 * 5)) recent)) s1 with
       | Normal files =>
           json (VObj [prop "count" (VNum (Z.of_nat (List.length files)));
                       prop "bucket" (VStr (BUCKET cfg));
                       prop "prefix" (VStr Server.PREFIX);
                       prop "files" (VArr (List.map Entry.to_val files))])
       | Throw err =>
           status_json 500
             (VObj [prop "error" (VStr (js "Failed to list files"));
                    prop "code" (or_else (VStr (name err)) (VStr []));
                    prop "details" (VStr (Server.message_or_string err));
                    prop "bucket" (VStr (BUCKET cfg));
                    prop "prefix" (VStr Server.PREFIX)])
       end.
Proof.
  intros Hl HL Hne recent.
  pose proof (exec_Promise_all_sign cfg w (60 * 5) recent s1) as (Hc & _).
  assert (E : exec w (Server.files cfg) s =
              let '(cs, r, s2) :=
                exec w (Promise_all (List.map (sign_item cfg (60 * 5)) recent)) s1 in
              (S3.ListObjectsV2Command (BUCKET cfg) Server.PREFIX 200 :: cs,
               match r with
               | Normal files =>
                   json (VObj [prop "count" (VNum (Z.of_nat (List.length files)));
                               prop "bucket" (VStr (BUCKET cfg));
                               prop "prefix" (VStr Server.PREFIX);
                               prop "files" (VArr (List.map Entry.to_val files))])
               | Throw err =>
                   status_json 500
                     (VObj [prop "error" (VStr (js "Failed to list files"));
                            prop "code" (or_else (VStr (name err)) (VStr []));
                            prop "details" (VStr (Server.message_or_string err));
                            prop "bucket" (VStr (BUCKET cfg));
                            prop "prefix" (VStr Server.PREFIX)])
               end, s2)).
  { unfold Server.files. rewrite exec_handle.
    unfold send_list, seq at 1. cbn [bind exec]. rewrite Hl. cbn [bind].
    rewrite HL. destruct L as [|o L']; [congruence|].
    fold recent. rewrite exec_seq.
    change (List.map (Server.sign_item cfg (60 * 5)) recent)
      with (List.map (sign_item cfg (60 * 5)) recent).
    destruct (exec w (Promise_all (List.map (sign_item cfg (60 * 5)) recent)) s1)
      as [[cs [files|err]] s2]; cbn [exec ret]; [rewrite app_nil_r|]; reflexivity. }
  unfold calls, result in *. rewrite E.
  destruct (exec w (Promise_all (List.map (sign_item cfg (60 * 5)) recent)) s1)
    as [[cs r] s2]. cbn [fst snd] in *. now rewrite Hc.
Qed.

End Listing.

(** C2: the listing drops the entries without a key or without a size
    greater than 0, orders the rest by last-modified time, newest first
    (entries of one instant stay in the order S3 listed them), and returns
    the first [n] of them, or all when fewer remain, each with its signed
    URL: nothing left out is newer than anything returned, and every entry
    returned has a positive size.  The call returns whenever the signer
    works.  server.js does the same with [n = 5]. *)
Theorem listRecentFiles_most_recent (cfg : config) (w : world) (s s1 : state w)
    (data : S3.list_output) (L : list S3.object) (n : nat) :
  respond w (S3.ListObjectsV2Command (BUCKET cfg) S3FileService.PREFIX 200) s
    = (Normal data, s1) ->
  S3.Contents data = Some L ->
  exists sorted,
    (forall o, S3FileService.real_object o = true <-> Spec.has_key_and_size o)
    /\ Permutation sorted (List.filter S3FileService.real_object L)
    /\ Spec.newest_first sorted
    /\ Spec.keeps_order_of_ties sorted (List.filter S3FileService.real_object L)
    /\ (forall a b, In a (firstn n sorted) -> In b (skipn n sorted) ->
                    S3.LastModified b <= S3.LastModified a)
    /\ (Spec.signer_works w ->
        exists entries,
          result w (S3FileService.listRecentFiles cfg (Some (Z.of_nat n))) s
          = Normal entries)
    /\ (forall entries,
          result w (S3FileService.listRecentFiles cfg (Some (Z.of_nat n))) s
          = Normal entries ->
          List.map Spec.object_of entries = firstn n sorted
          /\ Forall (fun e => exists sz,
                        S3FileService.Entry.size e = Some sz /\ 0 < sz) entries)
    /\ (L <> [] -> Spec.signer_works w ->
        exists entries5,
          List.map Spec.object_of entries5 = firstn 5 sorted
          /\ result w (Server.files cfg) s
             = json (VObj [prop "count" (VNum (Z.of_nat (List.length entries5)));
                           prop "bucket" (VStr (BUCKET cfg));
                           prop "prefix" (VStr Server.PREFIX);
                           prop "files"
                             (VArr (List.map S3FileService.Entry.to_val entries5))])).
Proof.
  intros Hl HL.
  set (kept := List.filter S3FileService.real_object L).
  exists (Builtin.sort S3FileService.by_date_desc kept).
  destruct (listRecentFiles_exec cfg w s s1 (Some (Z.of_nat n)) data L Hl HL)
    as (_ & Hr & Hn).
  fold kept in Hr. rewrite slice0_firstn in Hr.
  split; [exact real_object_spec|].
  split; [apply sort_perm|].
  split; [apply sort_newest_first|].
  split; [apply sort_keeps_ties|].
  split; [apply newest_first_cut, sort_newest_first|].
  split; [exact Hn|].
  split.
  - intros entries He. specialize (Hr entries He). split; [exact Hr|].
    rewrite Forall_forall. intros e Hin.
    assert (Hk : In (Spec.object_of e) kept).
    { apply (Permutation_in _ (sort_perm S3FileService.by_date_desc kept)).
      apply (firstn_In n). rewrite <- Hr. now apply in_map. }
    apply filter_In in Hk. destruct Hk as [_ Hk].
    apply real_object_spec in Hk. exact (proj2 Hk).
  - intros Hne Hw.
    destruct (server_files_exec cfg w s s1 data L Hl HL Hne) as (_ & Hres).
    destruct (exec_Promise_all_sign cfg w (60 * 5)
                (Builtin.slice0 (Builtin.sort S3FileService.by_date_desc kept) 5) s1)
      as (_ & Hobj & Hok).
    destruct (Hok Hw) as [entries5 H5]. exists entries5.
    specialize (Hobj entries5 H5).
    change 5 with (Z.of_nat 5) in Hobj at 1. rewrite slice0_firstn in Hobj.
    split; [exact Hobj|].
    rewrite Hres. fold kept. now rewrite H5.
Qed.

Lemma listRecentFiles_most_recent_witness :
  exists entries,
    result (Sample.scripted (Sample.healthy (Some Sample.ten_objects)))
           (S3FileService.listRecentFiles Sample.cfg (Some 3)) tt
      = Normal entries
    /\ List.map Spec.object_of entries
       = [Sample.obj "uploads/f" 15 1010; Sample.obj "uploads/b" 11 1009;
          Sample.obj "uploads/j" 19 1008].
Proof.
  destruct (listRecentFiles_most_recent Sample.cfg
              (Sample.scripted (Sample.healthy (Some Sample.ten_objects)))
              tt tt _ Sample.ten_objects 3 eq_refl eq_refl)
    as (sorted & _ & _ & _ & _ & _ & Hret & Hres & _).
  destruct Hret as [entries He].
  - intros b k e s. eexists. reflexivity.
  - exists entries. split; [exact He|].
    vm_compute in He. inversion He. reflexivity.
Defined.

(** ** Validation of an upload *)

Section Validation.

Lemma eqb_eq (a b : jsstring) : JsString.eqb a b = true <-> a = b.
Proof.
  revert b. induction a as [|x a IH]; intros [|y b]; simpl;
    try (split; [discriminate|congruence]); [tauto|].
  rewrite andb_true_iff, N.eqb_eq, IH. split.
  - intros [-> ->]. reflexivity.
  - intros H. inversion H. tauto.
Qed.

Lemma differs_spec (v : option jsstring) (lit : jsstring) :
  differs v lit = true <-> v <> Some lit.
Proof.
  destruct v as [x|]; simpl.
  - rewrite negb_true_iff. split.
    + intros H E. inversion E. subst. rewrite (proj2 (eqb_eq lit lit) eq_refl) in H.
      discriminate.
    + intros H. destruct (JsString.eqb x lit) eqn:E; [|reflexivity].
      apply eqb_eq in E. congruence.
  - split; [discriminate | reflexivity].
Qed.

Lemma differs_trusted (lit : jsstring) : differs (Some lit) lit = false.
Proof.
  destruct (differs (Some lit) lit) eqn:E; [|reflexivity].
  apply differs_spec in E. congruence.
Qed.

Lemma startsWith_spec (p s : jsstring) :
  startsWith p s = true <-> exists rest, s = p ++ rest.
Proof.
  revert s. induction p as [|x p IH]; intros s; simpl.
  - split; [intros _; now exists s | reflexivity].
  - destruct s as [|y s].
    + split; [discriminate | intros [rest H]; discriminate].
    + rewrite andb_true_iff, N.eqb_eq, IH. split.
      * intros [-> [rest ->]]. now exists rest.
      * intros [rest H]. inversion H. split; [reflexivity | now exists rest].
Qed.

Lemma startsWith_false (p s : jsstring) :
  (forall rest, s <> p ++ rest) -> startsWith p s = false.
Proof.
  intros H. destruct (startsWith p s) eqn:E; [|reflexivity].
  apply startsWith_spec in E. destruct E as [rest E]. now destruct (H rest).
Qed.

End Validation.

(** C3: when the X-Client-Source header is absent or is not exactly the
    literal of the trusted client, the upload handler answers 400 and makes
    no call at all, so no upload is started; in both variants. *)
Theorem upload_rejects_untrusted_source (cfg : config) (w : world)
    (s : state w) (req : request) :
  X_Client_Source req <> Some Spec.trusted_client ->
  (calls w (UploadController.uploadVideo cfg req) s = []
   /\ result w (UploadController.uploadVideo cfg req) s
      = status_json 400 (VObj [prop "error" (VStr (js "Invalid upload source"))]))
  /\ (calls w (Server.upload cfg req) s = []
      /\ result w (Server.upload cfg req) s
         = status_json 400 (VObj [prop "error" (VStr (js "Invalid upload source"))])).
Proof.
  intros H. apply differs_spec in H. unfold Spec.trusted_client in H.
  unfold calls, result, UploadController.uploadVideo, Server.upload.
  rewrite !exec_handle, H. cbn. repeat split.
Qed.

Lemma upload_rejects_untrusted_source_witness :
  calls (Sample.scripted (Sample.healthy None))
        (UploadController.uploadVideo Sample.cfg
           (Sample.request_of (Some (js "Stickers-Recorder"))
              (Some (Sample.video (Some (js "a.mp4")) (Some (js "video/mp4"))))))
        tt = []
  /\ status (result (Sample.scripted (Sample.healthy None))
               (UploadController.uploadVideo Sample.cfg
                  (Sample.request_of None None)) tt) = 400.
Proof.
  split.
  - refine (proj1 (proj1 (upload_rejects_untrusted_source Sample.cfg
             (Sample.scripted (Sample.healthy None)) tt _ _))).
    discriminate.
  - refine (f_equal status (proj2 (proj1 (upload_rejects_untrusted_source
             Sample.cfg (Sample.scripted (Sample.healthy None)) tt
             (Sample.request_of None None) _)))).
    discriminate.
Defined.

(** C4: with the right header and a file whose declared MIME type does not
    start with "video/", the upload handler answers 400 and makes no call,
    whatever the bytes of the file; in both variants. *)
Theorem upload_rejects_non_video (cfg : config) (w : world) (s : state w)
    (req : request) (f : File.t) (m : jsstring) :
  X_Client_Source req = Some Spec.trusted_client ->
  file req = Some f ->
  File.mimetype f = Some m ->
  (forall rest, m <> js "video/" ++ rest) ->
  (calls w (UploadController.uploadVideo cfg req) s = []
   /\ result w (UploadController.uploadVideo cfg req) s
      = status_json 400 (VObj [prop "error" (VStr (js "File must be a video."))]))
  /\ (calls w (Server.upload cfg req) s = []
      /\ result w (Server.upload cfg req) s
         = status_json 400
             (VObj [prop "error" (VStr (js "Invalid content type: " ++ m))])).
Proof.
  intros Hs Hf Hm Hv. apply startsWith_false in Hv.
  unfold calls, result, UploadController.uploadVideo, Server.upload,
    UploadController.mimetype_startsWith.
  rewrite !exec_handle, Hs, Hf, Hm, differs_trusted.
  replace (str_or (Some m) []) with m by (destruct m; reflexivity).
  rewrite seq_lift, Hv. cbn. repeat split.
Qed.

Lemma upload_rejects_non_video_witness :
  calls (Sample.scripted (Sample.healthy None))
        (UploadController.uploadVideo Sample.cfg
           (Sample.request_of (Some (js "stickers-recorder"))
              (Some (Sample.video (Some (js "a.mp4")) (Some (js "image/png"))))))
        tt = []
  /\ status (result (Sample.scripted (Sample.healthy None))
               (Server.upload Sample.cfg
                  (Sample.request_of (Some (js "stickers-recorder"))
                     (Some (Sample.video (Some (js "a.mp4")) (Some (js "image/png"))))))
               tt) = 400.
Proof.
  assert (H : forall rest, js "image/png" <> js "video/" ++ rest)
    by (intros rest; discriminate).
  pose proof (upload_rejects_non_video Sample.cfg
                (Sample.scripted (Sample.healthy None)) tt
                (Sample.request_of (Some (js "stickers-recorder"))
                   (Some (Sample.video (Some (js "a.mp4")) (Some (js "image/png")))))
                _ (js "image/png") eq_refl eq_refl eq_refl H) as [[Hc _] [_ Hr]].
  split; [exact Hc | exact (f_equal status Hr)].
Defined.

(** C10: in the split variant, with the right header and a file that has
    no [mimetype], reading [startsWith] throws, the handler's catch answers
    500 with the error "Upload failed" and the message of the TypeError as
    details, and no call is made, so no upload is started. *)
Theorem uploadVideo_missing_mimetype (cfg : config) (w : world) (s : state w)
    (req : request) (f : File.t) :
  X_Client_Source req = Some Spec.trusted_client ->
  file req = Some f ->
  File.mimetype f = None ->
  calls w (UploadController.uploadVideo cfg req) s = []
  /\ result w (UploadController.uploadVideo cfg req) s
     = status_json 500
         (VObj [prop "error" (VStr (js "Upload failed"));
                prop "details" (VStr (message (TypeError_reading "startsWith")))])
  /\ status (result w (UploadController.uploadVideo cfg req) s) <> 400.
Proof.
  intros Hs Hf Hm.
  unfold calls, result, UploadController.uploadVideo,
    UploadController.mimetype_startsWith.
  rewrite exec_handle, Hs, Hf, Hm, differs_trusted, seq_lift.
  cbn. repeat split. discriminate.
Qed.

Lemma uploadVideo_missing_mimetype_witness :
  result (Sample.scripted (Sample.healthy None))
         (UploadController.uploadVideo Sample.cfg
            (Sample.request_of (Some (js "stickers-recorder"))
               (Some (Sample.video (Some (js "a.mp4")) None)))) tt
  = status_json 500
      (VObj [prop "error" (VStr (js "Upload failed"));
             prop "details"
               (VStr (js "Cannot read properties of undefined (reading 'startsWith')"))]).
Proof.
  exact (proj1 (proj2 (uploadVideo_missing_mimetype Sample.cfg
           (Sample.scripted (Sample.healthy None)) tt
           (Sample.request_of (Some (js "stickers-recorder"))
              (Some (Sample.video (Some (js "a.mp4")) None)))
           _ eq_refl eq_refl eq_refl))).
Defined.

(** The monolithic handler reads [req.file.mimetype || ''] instead and
    answers 400 to the same request. *)
Lemma server_upload_missing_mimetype (cfg : config) (w : world) (s : state w)
    (req : request) (f : File.t) :
  X_Client_Source req = Some Spec.trusted_client ->
  file req = Some f ->
  File.mimetype f = None ->
  calls w (Server.upload cfg req) s = []
  /\ result w (Server.upload cfg req) s
     = status_json 400 (VObj [prop "error" (VStr (js "Invalid content type: "))]).
Proof.
  intros Hs Hf Hm. unfold calls, result, Server.upload.
  rewrite exec_handle, Hs, Hf, Hm, differs_trusted. cbn. split; reflexivity.
Qed.

(** ** An empty listing *)

(** C5: when the listing under the prefix holds no contents (S3 sends no
    [Contents], or an empty one), [listRecentFiles] completes normally with
    the empty sequence, whatever the limit, after the one listing call. *)
Theorem listRecentFiles_empty_bucket (cfg : config) (w : world)
    (s s1 : state w) (data : S3.list_output) (limit : option Z) :
  respond w (S3.ListObjectsV2Command (BUCKET cfg) S3FileService.PREFIX 200) s
    = (Normal data, s1) ->
  S3.Contents data = None \/ S3.Contents data = Some [] ->
  result w (S3FileService.listRecentFiles cfg limit) s = Normal []
  /\ calls w (S3FileService.listRecentFiles cfg limit) s
     = [S3.ListObjectsV2Command (BUCKET cfg) S3FileService.PREFIX 200].
Proof.
  intros Hl HC.
  unfold calls, result, S3FileService.listRecentFiles, send_list, seq.
  cbn [bind exec]. rewrite Hl. cbn [bind].
  destruct HC as [-> | ->].
  - split; reflexivity.
  - cbn [List.filter Builtin.sort fold_right].
    replace (Builtin.slice0 [] _) with (@nil S3.object)
      by (unfold Builtin.slice0; now rewrite firstn_nil).
    split; reflexivity.
Qed.

Lemma listRecentFiles_empty_bucket_witness :
  result (Sample.scripted (Sample.healthy None))
         (S3FileService.listRecentFiles Sample.cfg (Some 5)) tt = Normal []
  /\ result (Sample.scripted (Sample.healthy (Some [])))
            (S3FileService.listRecentFiles Sample.cfg (Some 5)) tt = Normal [].
Proof.
  split.
  - exact (proj1 (listRecentFiles_empty_bucket Sample.cfg
             (Sample.scripted (Sample.healthy None)) tt tt _ (Some 5)
             eq_refl (or_introl eq_refl))).
  - exact (proj1 (listRecentFiles_empty_bucket Sample.cfg
             (Sample.scripted (Sample.healthy (Some []))) tt tt _ (Some 5)
             eq_refl (or_intror eq_refl))).
Defined.

(** ** The expiry of the signed URLs *)

(** C6, as amended: the signer is called once for every entry of the final,
    truncated listing and for nothing else, with an expiry of 300 seconds,
    in the service and in server.js alike (whose [60 * 5] is 300). *)
Theorem signed_urls_only_for_recent (cfg : config) (w : world)
    (s s1 : state w) (data : S3.list_output) (L : list S3.object) (n : nat) :
  respond w (S3.ListObjectsV2Command (BUCKET cfg) S3FileService.PREFIX 200) s
    = (Normal data, s1) ->
  S3.Contents data = Some L ->
  let sorted :=
    Builtin.sort S3FileService.by_date_desc
                 (List.filter S3FileService.real_object L) in
  signing_requests
    (calls w (S3FileService.listRecentFiles cfg (Some (Z.of_nat n))) s)
    = List.map (fun o => (S3.Key o, 300)) (firstn n sorted)
  /\ signing_requests (calls w (Server.files cfg) s)
     = List.map (fun o => (S3.Key o, 300)) (firstn 5 sorted)
  /\ (List.length
        (signing_requests
           (calls w (S3FileService.listRecentFiles cfg (Some (Z.of_nat n))) s))
      <= n)%nat.
Proof.
  intros Hl HL sorted.
  assert (Hreq : forall e (items : list S3.object),
             signing_requests
               (List.map (fun it => S3.GetSignedUrl (BUCKET cfg) (S3.Key it) e) items)
             = List.map (fun o => (S3.Key o, e)) items).
  { intros e items. induction items as [|it items IH]; [reflexivity|].
    simpl. now rewrite <- IH. }
  destruct (listRecentFiles_exec cfg w s s1 (Some (Z.of_nat n)) data L Hl HL)
    as (Hc & _).
  rewrite Hc, slice0_firstn. fold sorted.
  change (signing_requests (?c :: ?cs)) with (signing_requests cs).
  rewrite Hreq. split; [reflexivity|]. split.
  - change S3FileService.PREFIX with Server.PREFIX in Hl.
    destruct L as [|o L'] eqn:EL.
    + unfold calls, Server.files. rewrite exec_handle.
      unfold send_list, seq. cbn [bind exec]. rewrite Hl. cbn [bind].
      rewrite HL. reflexivity.
    + destruct (server_files_exec cfg w s s1 data (o :: L') Hl HL) as (Hs & _);
        [discriminate|].
      rewrite Hs.
      match goal with
      | |- context [Builtin.slice0 ?l 5] =>
          change (Builtin.slice0 l 5) with (Builtin.slice0 l (Z.of_nat 5))
      end.
      rewrite slice0_firstn.
      change (signing_requests (?c :: ?cs)) with (signing_requests cs).
      rewrite Hreq. reflexivity.
  - rewrite length_map. apply firstn_le_length.
Qed.

Lemma signed_urls_only_for_recent_witness :
  signing_requests
    (calls (Sample.scripted (Sample.healthy (Some Sample.ten_objects)))
           (S3FileService.listRecentFiles Sample.cfg (Some 3)) tt)
  = [(Some (js "uploads/f"), 300); (Some (js "uploads/b"), 300);
     (Some (js "uploads/j"), 300)].
Proof.
  exact (proj1 (signed_urls_only_for_recent Sample.cfg
           (Sample.scripted (Sample.healthy (Some Sample.ten_objects)))
           tt tt _ Sample.ten_objects 3 eq_refl eq_refl)).
Defined.

(** C6, as stated, fails for server.js: its signer is asked for 300 seconds,
    not for 60. *)
Lemma server_files_expiry_not_60 :
  signing_requests
    (calls (Sample.scripted (Sample.healthy (Some [Sample.obj "uploads/a" 10 1004])))
           (Server.files Sample.cfg) tt)
  = [(Some (js "uploads/a"), 300)]
  /\ ~ In (Some (js "uploads/a"), 60)
          (signing_requests
             (calls (Sample.scripted
                       (Sample.healthy (Some [Sample.obj "uploads/a" 10 1004])))
                    (Server.files Sample.cfg) tt)).
Proof.
  split; [reflexivity|]. vm_compute. intros [H|[]]. discriminate H.
Qed.

(** ** The connectivity probe *)

(** C7: the probe always makes both calls, the bucket check and then the
    listing of at most 5 keys under the prefix, whatever the outcome of the
    first; each step of the report is a function of the answer to its own
    call, with [ok] telling whether that call succeeded; the report holds
    the two steps in this order and the probe completes normally in every
    world.  The same holds for the route of server.js. *)
Theorem probe_runs_both_steps :
  exists (head_step head_step' : completion S3.head_output -> jsval)
         (list_step list_step' : completion S3.list_output -> jsval),
    (forall a,
        Js.get "step" (head_step a) = Some (VStr (js "HeadBucket"))
        /\ Js.get "ok" (head_step a) = Some (VBool (is_normal a))
        /\ Js.get "step" (head_step' a) = Some (VStr (js "HeadBucket"))
        /\ Js.get "ok" (head_step' a) = Some (VBool (is_normal a)))
    /\ (forall a,
        Js.get "step" (list_step a) = Some (VStr (js "ListObjectsV2"))
        /\ Js.get "ok" (list_step a) = Some (VBool (is_normal a))
        /\ Js.get "step" (list_step' a) = Some (VStr (js "ListObjectsV2"))
        /\ Js.get "ok" (list_step' a) = Some (VBool (is_normal a)))
    /\ forall (cfg : config) (w : world) (s : state w),
        let r1 := respond w (S3.HeadBucketCommand (BUCKET cfg)) s in
        let r2 := respond w (S3.ListObjectsV2Command (BUCKET cfg)
                               S3FileService.PREFIX 5) (snd r1) in
        exec w (S3FileService.debugS3Connectivity cfg) s
          = ([S3.HeadBucketCommand (BUCKET cfg);
              S3.ListObjectsV2Command (BUCKET cfg) S3FileService.PREFIX 5],
             Normal (VObj [prop "region" (VStr (AWS_REGION cfg));
                           prop "bucket" (VStr (BUCKET cfg));
                           prop "steps" (VArr [head_step (fst r1);
                                               list_step (fst r2)])]),
             snd r2)
        /\ exec w (Server.debug_s3 cfg) s
           = ([S3.HeadBucketCommand (BUCKET cfg);
               S3.ListObjectsV2Command (BUCKET cfg) Server.PREFIX 5],
              Normal (json (VObj [prop "region" (VStr (AWS_REGION cfg));
                                  prop "bucket" (VStr (BUCKET cfg));
                                  prop "steps" (VArr [head_step' (fst r1);
                                                      list_step' (fst r2)])])),
              snd r2).
Proof.
  exists
    (fun a => match a with
              | Normal head =>
                  VObj [prop "step" (VStr (js "HeadBucket"));
                        prop "ok" (VBool true);
                        prop "httpStatus"
                          (num_or_undefined (S3.head_httpStatusCode head))]
              | Throw err =>
                  VObj [prop "step" (VStr (js "HeadBucket"));
                        prop "ok" (VBool false);
                        prop "code" (VStr (name err));
                        prop "message" (VStr (message err))]
              end),
    (fun a => match a with
              | Normal head =>
                  VObj [prop "step" (VStr (js "HeadBucket"));
                        prop "ok" (VBool true);
                        prop "httpStatus"
                          (or_else (num_or_undefined (S3.head_httpStatusCode head)) VNull)]
              | Throw err =>
                  VObj [prop "step" (VStr (js "HeadBucket"));
                        prop "ok" (VBool false);
                        prop "code" (VStr (name err));
                        prop "message" (VStr (message err));
                        prop "httpStatus"
                          (or_else (num_or_undefined (httpStatusCode err)) VNull)]
              end),
    (fun a => match a with
              | Normal listing =>
                  VObj [prop "step" (VStr (js "ListObjectsV2"));
                        prop "ok" (VBool true);
                        prop "count"
                          (VNum (Z.of_nat (List.length
                                   (S3FileService.contents_or_empty listing))));
                        prop "keys"
                          (VArr (List.map (fun o => str_or_undefined (S3.Key o))
                                   (S3FileService.contents_or_empty listing)))]
              | Throw err =>
                  VObj [prop "step" (VStr (js "ListObjectsV2"));
                        prop "ok" (VBool false);
                        prop "code" (VStr (name err));
                        prop "message" (VStr (message err))]
              end),
    (fun a => match a with
              | Normal listing =>
                  VObj [prop "step" (VStr (js "ListObjectsV2"));
                        prop "ok" (VBool true);
                        prop "httpStatus"
                          (num_or_undefined (S3.list_httpStatusCode listing));
                        prop "count"
                          (VNum (Z.of_nat (List.length
                                   (S3FileService.contents_or_empty listing))));
                        prop "keys"
                          (VArr (List.map (fun o => str_or_undefined (S3.Key o))
                                   (S3FileService.contents_or_empty listing)))]
              | Throw err =>
                  VObj [prop "step" (VStr (js "ListObjectsV2"));
                        prop "ok" (VBool false);
                        prop "code" (VStr (name err));
                        prop "message" (VStr (message err));
                        prop "httpStatus"
                          (or_else (num_or_undefined (httpStatusCode err)) VNull)]
              end).
  split; [intros [head|err]; repeat split|].
  split; [intros [listing|err]; repeat split|].
  intros cfg w s r1 r2. subst r1 r2.
  unfold S3FileService.debugS3Connectivity, Server.debug_s3.
  unfold try_catch, send_head, send_list, seq.
  cbn [bind exec].
  change Server.PREFIX with S3FileService.PREFIX.
  destruct (respond w (S3.HeadBucketCommand (BUCKET cfg)) s) as [a1 s1].
  cbn [fst snd].
  destruct a1 as [head|err1]; cbn [bind exec ret];
    destruct (respond w (S3.ListObjectsV2Command (BUCKET cfg)
                           S3FileService.PREFIX 5) s1) as [a2 s2];
    destruct a2 as [listing|err2]; cbn [bind exec ret fst snd];
    split; reflexivity.
Qed.

(** C8, as amended: in server.js every failing step of the probe holds
    exactly step, ok (false), code, message and httpStatus, and a succeeding
    bucket check holds step, ok (true) and httpStatus; in the service a
    succeeding bucket check holds the same, and a failing step holds step,
    ok (false), code and message. *)
Theorem probe_step_fields (cfg : config) (w : world) (s : state w) :
  let r1 := respond w (S3.HeadBucketCommand (BUCKET cfg)) s in
  let r2 := respond w (S3.ListObjectsV2Command (BUCKET cfg)
                         S3FileService.PREFIX 5) (snd r1) in
  (exists st1 st2,
      result w (Server.debug_s3 cfg) s
        = Normal (json (VObj [prop "region" (VStr (AWS_REGION cfg));
                              prop "bucket" (VStr (BUCKET cfg));
                              prop "steps" (VArr [st1; st2])]))
      /\ (is_normal (fst r1) = false ->
          Js.keys st1 = Spec.failing_step_fields
          /\ Js.get "ok" st1 = Some (VBool false))
      /\ (is_normal (fst r1) = true ->
          Js.keys st1 = Spec.bucket_check_fields
          /\ Js.get "ok" st1 = Some (VBool true))
      /\ (is_normal (fst r2) = false ->
          Js.keys st2 = Spec.failing_step_fields
          /\ Js.get "ok" st2 = Some (VBool false)))
  /\ (exists st1 st2,
      result w (S3FileService.debugS3Connectivity cfg) s
        = Normal (VObj [prop "region" (VStr (AWS_REGION cfg));
                        prop "bucket" (VStr (BUCKET cfg));
                        prop "steps" (VArr [st1; st2])])
      /\ (is_normal (fst r1) = false ->
          Js.keys st1 = Spec.failing_step_fields_of_service
          /\ Js.get "ok" st1 = Some (VBool false))
      /\ (is_normal (fst r1) = true ->
          Js.keys st1 = Spec.bucket_check_fields
          /\ Js.get "ok" st1 = Some (VBool true))
      /\ (is_normal (fst r2) = false ->
          Js.keys st2 = Spec.failing_step_fields_of_service
          /\ Js.get "ok" st2 = Some (VBool false))).
Proof.
  intros r1 r2. subst r1 r2.
  unfold result, S3FileService.debugS3Connectivity, Server.debug_s3.
  unfold try_catch, send_head, send_list, seq.
  cbn [bind exec].
  change Server.PREFIX with S3FileService.PREFIX.
  destruct (respond w (S3.HeadBucketCommand (BUCKET cfg)) s) as [a1 s1].
  cbn [fst snd].
  destruct a1 as [head|err1]; cbn [bind exec ret];
    destruct (respond w (S3.ListObjectsV2Command (BUCKET cfg)
                           S3FileService.PREFIX 5) s1) as [a2 s2];
    destruct a2 as [listing|err2]; cbn [bind exec ret fst snd is_normal];
    (split; do 2 eexists; (split; [reflexivity|]);
     repeat split; try discriminate).
Qed.

Lemma probe_step_fields_witness :
  exists st1 st2,
    result (Sample.scripted Sample.no_head_access) (Server.debug_s3 Sample.cfg) tt
      = Normal (json (VObj [prop "region" (VStr (js "ap-southeast-1"));
                            prop "bucket" (VStr (js "pod-videos"));
                            prop "steps" (VArr [st1; st2])]))
    /\ Js.keys st1 = Spec.failing_step_fields
    /\ Js.get "ok" st1 = Some (VBool false).
Proof.
  destruct (probe_step_fields Sample.cfg
              (Sample.scripted Sample.no_head_access) tt)
    as [(st1 & st2 & E & Hfail & _) _].
  exists st1, st2. split; [exact E|]. exact (Hfail eq_refl).
Defined.

(** C8, as stated, fails for the service: its failing steps carry no
    httpStatus. *)
Lemma service_failing_step_without_httpStatus :
  exists st1 st2,
    result (Sample.scripted Sample.unreachable)
           (S3FileService.debugS3Connectivity Sample.cfg) tt
      = Normal (VObj [prop "region" (VStr (js "ap-southeast-1"));
                      prop "bucket" (VStr (js "pod-videos"));
                      prop "steps" (VArr [st1; st2])])
    /\ Js.get "ok" st1 = Some (VBool false)
    /\ Js.has "httpStatus" st1 = false
    /\ Js.get "ok" st2 = Some (VBool false)
    /\ Js.has "httpStatus" st2 = false.
Proof.
  do 2 eexists. split; [vm_compute; reflexivity|]. repeat split.
Qed.

(** ** The answers of GET /files *)

Section FilesAnswers.
Import S3FileService.

Lemma listRecentFiles_unfold (cfg : config) (w : world) (s : state w)
    (limit : option Z) :
  exec w (listRecentFiles cfg limit) s =
  let (r, s1) := respond w (S3.ListObjectsV2Command (BUCKET cfg) PREFIX 200) s in
  match r with
  | Throw err => ([S3.ListObjectsV2Command (BUCKET cfg) PREFIX 200], Throw err, s1)
  | Normal data =>
      match S3.Contents data with
      | None => ([S3.ListObjectsV2Command (BUCKET cfg) PREFIX 200], Normal [], s1)
      | Some L =>
          let '(cs, a, s2) :=
            exec w (Promise_all
                      (List.map (sign_item cfg 300)
                         (Builtin.slice0
                            (Builtin.sort by_date_desc (List.filter real_object L))
                            (match limit with Some n => n | None => 5 end)))) s1 in
          (S3.ListObjectsV2Command (BUCKET cfg) PREFIX 200 :: cs, a, s2)
      end
  end.
Proof.
  unfold listRecentFiles, send_list, seq. cbn [bind exec].
  destruct (respond w (S3.ListObjectsV2Command (BUCKET cfg) PREFIX 200) s)
    as [[data|err] s1]; cbn [bind exec]; [|reflexivity].
  destruct (S3.Contents data) as [L|]; reflexivity.
Qed.

Lemma server_files_unfold (cfg : config) (w : world) (s : state w) :
  result w (Server.files cfg) s =
  let (r, s1) := respond w (S3.ListObjectsV2Command (BUCKET cfg) PREFIX 200) s in
  let failed err :=
    status_json 500
      (VObj [prop "error" (VStr (js "Failed to list files"));
             prop "code" (or_else (VStr (name err)) (VStr []));
             prop "details" (VStr (Server.message_or_string err));
             prop "bucket" (VStr (BUCKET cfg));
             prop "prefix" (VStr Server.PREFIX)]) in
  let no_files :=
    json (VObj [prop "message" (VStr (js "No files found in uploads/"));
                prop "bucket" (VStr (BUCKET cfg))]) in
  match r with
  | Throw err => failed err
  | Normal data =>
      match S3.Contents data with
      | None | Some [] => no_files
      | Some L =>
          match result w (Promise_all
                            (List.map (sign_item cfg 300)
                               (Builtin.slice0
                                  (Builtin.sort by_date_desc
                                     (List.filter real_object L)) 5))) s1 with
          | Normal files =>
              json (VObj [prop "count" (VNum (Z.of_nat (List.length files)));
                          prop "bucket" (VStr (BUCKET cfg));
                          prop "prefix" (VStr Server.PREFIX);
                          prop "files" (VArr (List.map Entry.to_val files))])
          | Throw err => failed err
          end
      end
  end.
Proof.
  unfold result, Server.files. rewrite exec_handle.
  unfold send_list, seq at 1. cbn [bind exec].
  change Server.PREFIX with PREFIX.
  destruct (respond w (S3.ListObjectsV2Command (BUCKET cfg) PREFIX 200) s)
    as [[data|err] s1]; cbn [bind exec]; [|reflexivity].
  destruct (S3.Contents data) as [[|o L]|]; try reflexivity.
  rewrite exec_seq.
  change (List.map (Server.sign_item cfg (60 * 5)))
    with (List.map (sign_item cfg 300)).
  destruct (exec w _ s1) as [[cs [files|err]] s2]; reflexivity.
Qed.

End FilesAnswers.

(** C9, as amended.  server.js: an empty listing is answered with
    {message, bucket}, a listing that holds something with a body that
    contains count and files (beside bucket and prefix), and a failure of S3
    with a 500 whose body holds error, code, details, bucket and prefix.
    The split variant answers every listing that succeeds, the empty one
    too, with {count, files}, and a failure with a 500 whose body holds
    error and details. *)
Theorem files_response_bodies (cfg : config) (w : world) (s : state w) :
  (forall err,
      result w (S3FileService.listRecentFiles cfg (Some 5)) s = Throw err ->
      result w (Server.files cfg) s
        = status_json 500
            (VObj [prop "error" (VStr (js "Failed to list files"));
                   prop "code" (or_else (VStr (name err)) (VStr []));
                   prop "details" (VStr (Server.message_or_string err));
                   prop "bucket" (VStr (BUCKET cfg));
                   prop "prefix" (VStr Server.PREFIX)])
      /\ result w (FileController.getFiles cfg) s
         = status_json 500
             (VObj [prop "error" (VStr (js "Failed to list files"));
                    prop "details" (VStr (message err))]))
  /\ (forall files,
      result w (S3FileService.listRecentFiles cfg (Some 5)) s = Normal files ->
      result w (FileController.getFiles cfg) s
        = json (VObj [prop "count" (VNum (Z.of_nat (List.length files)));
                      prop "files"
                        (VArr (List.map S3FileService.Entry.to_val files))])
      /\ forall data,
          fst (respond w (S3.ListObjectsV2Command (BUCKET cfg)
                            S3FileService.PREFIX 200) s) = Normal data ->
          match S3.Contents data with
          | None | Some [] =>
              files = []
              /\ result w (Server.files cfg) s
                 = json (VObj [prop "message" (VStr (js "No files found in uploads/"));
                               prop "bucket" (VStr (BUCKET cfg))])
          | Some (_ :: _) =>
              result w (Server.files cfg) s
                = json (VObj [prop "count" (VNum (Z.of_nat (List.length files)));
                              prop "bucket" (VStr (BUCKET cfg));
                              prop "prefix" (VStr Server.PREFIX);
                              prop "files"
                                (VArr (List.map S3FileService.Entry.to_val files))])
          end).
Proof.
  destruct (getFiles_exec cfg w s) as [_ Hg]. rewrite Hg. clear Hg.
  rewrite server_files_unfold. unfold result.
  rewrite listRecentFiles_unfold.
  destruct (respond w (S3.ListObjectsV2Command (BUCKET cfg)
                         S3FileService.PREFIX 200) s) as [[data|err0] s1];
    cbn [fst snd].
  - destruct (S3.Contents data) as [[|o L]|] eqn:EC.
    + cbn. split; [discriminate|]. intros files E. inversion E. subst.
      split; [reflexivity|]. intros d Ed. inversion Ed. subst d.
      rewrite EC. split; reflexivity.
    + destruct (exec w _ s1) as [[cs [fs|e]] s2]; cbn [fst snd].
      * split; [discriminate|]. intros files E. inversion E. subst.
        split; [reflexivity|]. intros d Ed. inversion Ed. subst d.
        rewrite EC. reflexivity.
      * split.
        -- intros err E. inversion E. subst. split; reflexivity.
        -- discriminate.
    + cbn. split; [discriminate|]. intros files E. inversion E. subst.
      split; [reflexivity|]. intros d Ed. inversion Ed. subst d.
      rewrite EC. split; reflexivity.
  - split.
    + intros err E. inversion E. subst. split; reflexivity.
    + discriminate.
Qed.

Lemma files_response_bodies_witness :
  result (Sample.scripted Sample.unreachable) (Server.files Sample.cfg) tt
    = status_json 500
        (VObj [prop "error" (VStr (js "Failed to list files"));
               prop "code" (VStr (js "AccessDenied"));
               prop "details" (VStr (js "Access Denied"));
               prop "bucket" (VStr (js "pod-videos"));
               prop "prefix" (VStr (js "uploads/"))])
  /\ result (Sample.scripted (Sample.healthy None))
            (FileController.getFiles Sample.cfg) tt
     = json (VObj [prop "count" (VNum 0); prop "files" (VArr [])]).
Proof.
  split.
  - exact (proj1 (proj1 (files_response_bodies Sample.cfg
             (Sample.scripted Sample.unreachable) tt)
             Sample.AccessDenied eq_refl)).
  - exact (proj1 (proj2 (files_response_bodies Sample.cfg
             (Sample.scripted (Sample.healthy None)) tt) [] eq_refl)).
Defined.

(** C9, as stated, fails for the split variant: an empty listing is answered
    with {count, files}, and a failure with a body of error and details
    only. *)
Lemma getFiles_bodies_differ :
  result (Sample.scripted (Sample.healthy None))
         (FileController.getFiles Sample.cfg) tt
    = json (VObj [prop "count" (VNum 0); prop "files" (VArr [])])
  /\ Js.has "message"
       (body (result (Sample.scripted (Sample.healthy None))
                (FileController.getFiles Sample.cfg) tt)) = false
  /\ status (result (Sample.scripted Sample.unreachable)
               (FileController.getFiles Sample.cfg) tt) = 500
  /\ Js.keys (body (result (Sample.scripted Sample.unreachable)
                      (FileController.getFiles Sample.cfg) tt))
     = ["error"; "details"]%string.
Proof.
  repeat split.
Qed.

(** * Further properties of the code *)

(** ** The sanitizing of file names *)

Section SanitizeMore.

Lemma dropWhile_length (p : N -> bool) (s : jsstring) :
  (List.length (dropWhile p s) <= List.length s)%nat.
Proof.
  induction s as [|c t IH]; simpl; [lia|].
  destruct (p c); simpl; lia.
Qed.

Lemma dropWhile_Forall (P : N -> Prop) (p : N -> bool) (s : jsstring) :
  Forall P s -> Forall P (dropWhile p s).
Proof.
  induction 1 as [|c t Hc Ht IH]; simpl; [constructor|].
  destruct (p c); [exact IH | now constructor].
Qed.

(** Whatever holds of every code unit of a name and of the underscore holds
    of every code unit of the sanitized name. *)
Lemma replace_ws_Forall (P : N -> Prop) (s : jsstring) :
  P underscore -> Forall P s -> Forall P (replace_ws s).
Proof.
  intros Hu. funelim (replace_ws s); intros Hs.
  - constructor.
  - inversion Hs; subst. constructor; [exact Hu|].
    apply H; [exact Hu | now apply dropWhile_Forall].
  - inversion Hs; subst. constructor; [assumption|]. apply H; assumption.
Qed.

Lemma replace_ws_no_space (s : jsstring) :
  Forall (fun c => is_space c = false) (replace_ws s).
Proof.
  funelim (replace_ws s).
  - constructor.
  - constructor; [reflexivity | assumption].
  - constructor; assumption.
Qed.

Lemma replace_ws_fixed (s : jsstring) :
  Forall (fun c => is_space c = false) s -> replace_ws s = s.
Proof.
  funelim (replace_ws s); intros Hs.
  - reflexivity.
  - inversion Hs; subst. congruence.
  - inversion Hs; subst. f_equal. now apply H.
Qed.

Lemma replace_ws_length (s : jsstring) :
  (List.length (replace_ws s) <= List.length s)%nat.
Proof.
  funelim (replace_ws s); simpl.
  - lia.
  - pose proof (dropWhile_length is_space t). lia.
  - lia.
Qed.

End SanitizeMore.

(** X1: the sanitized name holds no white space, sanitizing it again changes
    nothing, it is never longer than the name, and a name without white
    space is left as it is. *)
Theorem replace_ws_normalizes (s : jsstring) :
  Forall (fun c => is_space c = false) (replace_ws s)
  /\ replace_ws (replace_ws s) = replace_ws s
  /\ (List.length (replace_ws s) <= List.length s)%nat
  /\ (Forall (fun c => is_space c = false) s -> replace_ws s = s).
Proof.
  split; [apply replace_ws_no_space|].
  split; [apply replace_ws_fixed, replace_ws_no_space|].
  split; [apply replace_ws_length | apply replace_ws_fixed].
Qed.

(** ** The code units of a storage key *)

Section KeyShape.

Lemma js_cons (a : ascii) (s : string) :
  js (String a s) = N_of_ascii a :: js s.
Proof. reflexivity. Qed.

Lemma uint_numeral (u : Decimal.uint) :
  Forall (fun c => Shape.numeral_char c = true) (js (NilEmpty.string_of_uint u)).
Proof.
  induction u; simpl NilEmpty.string_of_uint;
    [constructor | rewrite js_cons; constructor; [reflexivity | assumption] ..].
Qed.

Lemma of_int_numeral (n : Z) :
  Forall (fun c => Shape.numeral_char c = true) (of_int n).
Proof.
  unfold of_int. destruct (Z.to_int n) as [u|u]; simpl NilZero.string_of_int.
  - destruct u; try apply uint_numeral. repeat constructor.
  - rewrite js_cons. constructor; [reflexivity|].
    destruct u; try apply uint_numeral. repeat constructor.
Qed.

Lemma numeral_char_cases (c : N) :
  Shape.numeral_char c = true ->
  In c [45; 48; 49; 50; 51; 52; 53; 54; 55; 56; 57]%N.
Proof.
  unfold Shape.numeral_char. intros H.
  apply orb_true_iff in H. destruct H as [H|H].
  - apply andb_true_iff in H. destruct H as [H1 H2].
    apply N.leb_le in H1, H2. simpl.
    assert (c = 48 \/ c = 49 \/ c = 50 \/ c = 51 \/ c = 52 \/ c = 53
            \/ c = 54 \/ c = 55 \/ c = 56 \/ c = 57)%N by lia.
    intuition auto.
  - apply N.eqb_eq in H. now left.
Qed.

(** What holds of the minus sign and of the ten digits holds of every code
    unit of a numeral. *)
Lemma of_int_Forall (P : N -> Prop) (n : Z) :
  Forall P [45; 48; 49; 50; 51; 52; 53; 54; 55; 56; 57]%N ->
  Forall P (of_int n).
Proof.
  intros HP. rewrite Forall_forall in HP.
  eapply Forall_impl; [|apply of_int_numeral].
  intros c Hc. apply HP. now apply numeral_char_cases.
Qed.

(** A key is made of the prefix, a numeral, a hyphen and the sanitized name:
    what holds of those code units and of the sanitized name holds of the
    key. *)
Lemma object_key_Forall (P : N -> Prop) (T : Z) (sanitized : jsstring) :
  Forall P (js "uploads/-0123456789") ->
  Forall P sanitized ->
  Forall P (S3FileService.object_key T sanitized).
Proof.
  intros HP Hn. unfold S3FileService.object_key.
  rewrite Forall_forall in HP.
  repeat (apply Forall_app; split).
  - rewrite Forall_forall. intros c Hc. apply HP. revert Hc.
    vm_compute. tauto.
  - apply of_int_Forall. rewrite Forall_forall. intros c Hc. apply HP.
    revert Hc. vm_compute. tauto.
  - rewrite Forall_forall. intros c Hc. apply HP. revert Hc.
    vm_compute. tauto.
  - exact Hn.
Qed.

Lemma server_object_key (T : Z) (name : jsstring) :
  Server.object_key T name = S3FileService.object_key T name.
Proof. reflexivity. Qed.

End KeyShape.

(** ** The upload, call by call *)

Section UploadRuns.
Import S3FileService.

(** The options of the one upload of [uploadVideoToS3]. *)
Lemma uploadVideoToS3_exec (cfg : config) (w : world) (s : state w) (f : File.t) :
  exec w (uploadVideoToS3 cfg f) s =
  let (now, s1) := respond w S3.DateNow s in
  let key := object_key now
               (replace_ws (str_or (File.originalname f) (js "video.mp4"))) in
  let o := {| S3.Bucket := BUCKET cfg;
              S3.UploadKey := key;
              S3.Body := File.buffer f;
              S3.ContentType := File.mimetype f;
              S3.leavePartsOnError := None |} in
  let (r, s2) := respond w (S3.UploadDone o) s1 in
  ([S3.DateNow; S3.UploadDone o],
   match r with
   | Throw e => Throw e
   | Normal _ =>
       match Builtin.encodeURIComponent key with
       | Throw e => Throw e
       | Normal enc =>
           Normal {| UploadResult.key := key;
                     UploadResult.url := object_url cfg enc;
                     UploadResult.contentType := File.mimetype f;
                     UploadResult.size := File.size f |}
       end
   end, s2).
Proof.
  unfold uploadVideoToS3, Date_now, upload_done, lift, seq.
  cbn [bind exec].
  destruct (respond w S3.DateNow s) as [now s1]. cbn [bind exec].
  destruct (respond w _ s1) as [[[]|e] s2]; cbn [bind exec]; [|reflexivity].
  destruct (Builtin.encodeURIComponent _); reflexivity.
Qed.

Lemma uploadVideo_exec (cfg : config) (w : world) (s : state w) (req : request) :
  exec w (UploadController.uploadVideo cfg req) s =
  let bad msg := ([], status_json 400 (VObj [prop "error" (VStr msg)]), s) in
  let failed e :=
    status_json 500 (VObj [prop "error" (VStr (js "Upload failed"));
                           prop "details" (VStr (message e))]) in
  if differs (X_Client_Source req) (js "stickers-recorder") then
    bad (js "Invalid upload source")
  else
    match file req with
    | None => bad (js "No file uploaded.")
    | Some f =>
        match File.mimetype f with
        | None => ([], failed (TypeError_reading "startsWith"), s)
        | Some m =>
            if startsWith (js "video/") m then
              let '(cs, r, s') := exec w (uploadVideoToS3 cfg f) s in
              (cs,
               match r with
               | Throw e => failed e
               | Normal result =>
                   json (VObj
                     [prop "message" (VStr (js "Upload successful"));
                      prop "key" (VStr (UploadResult.key result));
                      prop "url" (VStr (UploadResult.url result));
                      prop "contentType"
                        (str_or_undefined (UploadResult.contentType result));
                      prop "size" (VNum (UploadResult.size result));
                      prop "source" (str_or_undefined (X_Client_Source req))])
               end, s')
            else bad (js "File must be a video.")
        end
    end.
Proof.
  unfold UploadController.uploadVideo, UploadController.mimetype_startsWith.
  rewrite exec_handle.
  destruct (differs _ _); [reflexivity|].
  destruct (file req) as [f|]; [|reflexivity].
  destruct (File.mimetype f) as [m|] eqn:Em; [|reflexivity].
  rewrite seq_lift. destruct (startsWith _ m); cbn [negb]; [|reflexivity].
  rewrite exec_seq.
  destruct (exec w (uploadVideoToS3 cfg f) s) as [[cs [result|e]] s'];
    cbn [exec ret]; [rewrite app_nil_r|]; reflexivity.
Qed.

Lemma server_upload_exec (cfg : config) (w : world) (s : state w) (req : request) :
  exec w (Server.upload cfg req) s =
  let bad msg := ([], status_json 400 (VObj [prop "error" (VStr msg)]), s) in
  let failed e :=
    status_json 500 (VObj [prop "error" (VStr (js "Upload failed"));
                           prop "details" (VStr (Server.message_or_string e))]) in
  if differs (X_Client_Source req) (js "stickers-recorder") then
    bad (js "Invalid upload source")
  else
    match file req with
    | None =>
        bad (js "No file uploaded (expected field " ++ [dquote] ++ js "video"
             ++ [dquote] ++ js ").")
    | Some f =>
        let ct := str_or (File.mimetype f) [] in
        if startsWith (js "video/") ct then
          let (now, s1) := respond w S3.DateNow s in
          let key :=
            object_key now
              (replace_ws
                 (str_or (File.originalname f)
                    (if includes (js "mp4") ct then js "video.mp4"
                     else js "video.webm"))) in
          let o := {| S3.Bucket := BUCKET cfg;
                      S3.UploadKey := key;
                      S3.Body := File.buffer f;
                      S3.ContentType := Some ct;
                      S3.leavePartsOnError := Some false |} in
          let (r, s2) := respond w (S3.UploadDone o) s1 in
          ([S3.DateNow; S3.UploadDone o],
           match r with
           | Throw e => failed e
           | Normal _ =>
               match Builtin.encodeURIComponent key with
               | Throw e => failed e
               | Normal enc =>
                   json (VObj
                     [prop "message" (VStr (js "Upload successful"));
                      prop "key" (VStr key);
                      prop "url" (VStr (object_url cfg enc));
                      prop "contentType" (VStr ct);
                      prop "size" (VNum (File.size f));
                      prop "source" (str_or_undefined (X_Client_Source req))])
               end
           end, s2)
        else bad (js "Invalid content type: " ++ ct)
    end.
Proof.
  unfold Server.upload. rewrite exec_handle.
  destruct (differs _ _); [reflexivity|].
  destruct (file req) as [f|]; [|reflexivity].
  cbv zeta. destruct (startsWith _ _); cbn [negb]; [|reflexivity].
  unfold Date_now, upload_done, lift, seq. cbn [bind exec].
  destruct (respond w S3.DateNow s) as [now s1]. cbn [bind exec].
  change Server.object_key with object_key.
  destruct (respond w _ s1) as [[[]|e] s2]; cbn [bind exec]; [|reflexivity].
  destruct (Builtin.encodeURIComponent _); reflexivity.
Qed.

End UploadRuns.

(** ** Percent-encoding of a key *)

Section Encoding.

Lemma not_surrogate (c : N) :
  Shape.is_surrogate c = false ->
  Builtin.is_high_surrogate (Z.of_N c) = false
  /\ Builtin.is_low_surrogate (Z.of_N c) = false.
Proof. unfold Shape.is_surrogate. apply orb_false_iff. Qed.

(** Without surrogates there is nothing [encodeURIComponent] refuses. *)
Lemma encodeURIComponent_total (s : jsstring) :
  Forall (fun c => Shape.is_surrogate c = false) s ->
  exists enc, Builtin.encodeURIComponent s = Normal enc.
Proof.
  induction 1 as [|c t Hc Ht [enc IH]]; [now exists []|].
  apply not_surrogate in Hc. destruct Hc as [Hh Hl].
  cbn [Builtin.encodeURIComponent]. cbv zeta. rewrite Hh, Hl, IH.
  destruct (Builtin.uri_unreserved (Z.of_N c)); eexists; reflexivity.
Qed.

Lemma hex_digit_safe (d : Z) :
  0 <= d < 16 -> Shape.url_safe (Builtin.hex_digit d) = true.
Proof.
  intros H.
  assert (E : d = 0 \/ d = 1 \/ d = 2 \/ d = 3 \/ d = 4 \/ d = 5 \/ d = 6
              \/ d = 7 \/ d = 8 \/ d = 9 \/ d = 10 \/ d = 11 \/ d = 12
              \/ d = 13 \/ d = 14 \/ d = 15) by lia.
  repeat (destruct E as [->|E]; [reflexivity|]). subst. reflexivity.
Qed.

Lemma escape_byte_safe (b : Z) :
  0 <= b < 256 ->
  Forall (fun c => Shape.url_safe c = true) (Builtin.escape_byte b).
Proof.
  intros H. unfold Builtin.escape_byte.
  repeat constructor; apply hex_digit_safe;
    Z.to_euclidean_division_equations; lia.
Qed.

Lemma utf8_bytes (cp : Z) :
  0 <= cp < 1114112 ->
  Forall (fun b => 0 <= b < 256) (Builtin.utf8 cp).
Proof.
  intros H. unfold Builtin.utf8.
  destruct (Z.ltb_spec cp 128); [repeat constructor; lia|].
  destruct (Z.ltb_spec cp 2048);
    [repeat constructor; Z.to_euclidean_division_equations; lia|].
  destruct (Z.ltb_spec cp 65536);
    repeat constructor; Z.to_euclidean_division_equations; lia.
Qed.

Lemma escape_code_point_safe (cp : Z) :
  0 <= cp < 1114112 ->
  Forall (fun c => Shape.url_safe c = true) (Builtin.escape_code_point cp).
Proof.
  intros H. unfold Builtin.escape_code_point.
  pose proof (utf8_bytes cp H) as Hb.
  induction Hb as [|b l Hb _ IH]; cbn [flat_map]; [constructor|].
  apply Forall_app. split; [now apply escape_byte_safe | exact IH].
Qed.

(** What [encodeURIComponent] returns is made of unreserved code units and
    percent escapes. *)
Lemma encodeURIComponent_safe (s : jsstring) :
  Forall (fun c => Shape.code_unit c = true) s ->
  forall enc, Builtin.encodeURIComponent s = Normal enc ->
              Forall (fun c => Shape.url_safe c = true) enc.
Proof.
  remember (List.length s) as n eqn:En.
  assert (Hn : (List.length s <= n)%nat) by lia. clear En.
  revert s Hn. induction n as [|n IH]; intros s Hn Hs enc E.
  - destruct s; [|simpl in Hn; lia]. inversion E. constructor.
  - destruct s as [|c t]; [inversion E; constructor|].
    inversion Hs as [|? ? Hc Ht]; subst.
    unfold Shape.code_unit in Hc. apply N.ltb_lt in Hc.
    assert (Hz : 0 <= Z.of_N c < 65536) by lia.
    cbn [Builtin.encodeURIComponent] in E. cbv zeta in E.
    destruct (Builtin.uri_unreserved (Z.of_N c)) eqn:Eu.
    + destruct (Builtin.encodeURIComponent t) as [enc'|] eqn:Et; [|discriminate].
      inversion E. subst. constructor.
      * unfold Shape.url_safe. now rewrite Eu.
      * apply (IH t); [simpl in Hn; lia | assumption | assumption].
    + destruct (Builtin.is_low_surrogate (Z.of_N c)); [discriminate|].
      destruct (Builtin.is_high_surrogate (Z.of_N c)) eqn:Eh.
      * destruct t as [|d t']; [discriminate|].
        destruct (Builtin.is_low_surrogate (Z.of_N d)) eqn:El; [|discriminate].
        destruct (Builtin.encodeURIComponent t') as [enc'|] eqn:Et; [|discriminate].
        inversion E. subst. inversion Ht as [|? ? Hd Ht']; subst.
        apply Forall_app. split.
        -- apply escape_code_point_safe.
           unfold Builtin.is_high_surrogate in Eh.
           unfold Builtin.is_low_surrogate in El.
           apply andb_true_iff in Eh, El. destruct Eh as [E1 E2], El as [E3 E4].
           apply Z.leb_le in E1, E2, E3, E4. lia.
        -- apply (IH t'); [simpl in Hn; lia | assumption | assumption].
      * destruct (Builtin.encodeURIComponent t) as [enc'|] eqn:Et; [|discriminate].
        inversion E. subst. apply Forall_app. split.
        -- apply escape_code_point_safe. lia.
        -- apply (IH t); [simpl in Hn; lia | assumption | assumption].
Qed.

End Encoding.

(** ** When an upload is started, and under which key *)

Section UploadGate.
Import S3FileService.

Lemma str_or_some_nil (m : jsstring) : str_or (Some m) [] = m.
Proof. destruct m; reflexivity. Qed.

Lemma accepted_split (req : request) :
  (exists f m, Shape.accepted req f m)
  \/ (~ (exists f m, Shape.accepted req f m)
      /\ (differs (X_Client_Source req) (js "stickers-recorder") = true
          \/ file req = None
          \/ exists f, file req = Some f
                       /\ startsWith (js "video/") (str_or (File.mimetype f) []) = false)).
Proof.
  destruct (differs (X_Client_Source req) (js "stickers-recorder")) eqn:Ed.
  - right. split; [|now left]. intros (f & m & Hs & _).
    apply differs_spec in Ed. contradiction.
  - destruct (file req) as [f|] eqn:Ef.
    + destruct (startsWith (js "video/") (str_or (File.mimetype f) [])) eqn:Ev.
      * left. destruct (File.mimetype f) as [m|] eqn:Em; [|discriminate].
        rewrite str_or_some_nil in Ev. apply startsWith_spec in Ev.
        exists f, m. repeat split; try assumption.
        destruct (X_Client_Source req) as [x|] eqn:Ex; [|discriminate].
        simpl in Ed. apply negb_false_iff, eqb_eq in Ed. now subst.
      * right. split; [|right; right; now exists f].
        intros (f' & m & _ & Hf & Hm & Hv). rewrite Ef in Hf.
        inversion Hf. subst f'.
        rewrite Hm, str_or_some_nil in Ev.
        apply startsWith_spec in Hv. congruence.
    + right. split; [|right; now left].
      intros (f' & m & _ & Hf & _). rewrite Ef in Hf. discriminate.
Qed.

Lemma accepted_runs (req : request) (f : File.t) (m : jsstring) :
  Shape.accepted req f m ->
  differs (X_Client_Source req) (js "stickers-recorder") = false
  /\ startsWith (js "video/") m = true.
Proof.
  intros (Hs & _ & _ & Hv). split.
  - rewrite Hs. apply differs_trusted.
  - now apply startsWith_spec.
Qed.

Lemma key_scoped (T : Z) (name : jsstring) :
  Shape.scoped_key (object_key T (replace_ws name)).
Proof.
  split.
  - eexists. reflexivity.
  - apply object_key_Forall; [|apply replace_ws_no_space].
    repeat constructor.
Qed.

End UploadGate.

(** X2: an upload handler starts an upload exactly when the request carries
    the trusted header, a file, and a declared MIME type that starts with
    video/.  It then makes two calls, the clock and one upload; otherwise
    it makes none.  It never lists, checks or signs.  Both variants. *)
Theorem upload_only_when_accepted (cfg : config) (w : world) (s : state w)
    (req : request) :
  ((exists f m, Shape.accepted req f m)
   /\ (exists o, calls w (UploadController.uploadVideo cfg req) s
                 = [S3.DateNow; S3.UploadDone o])
   /\ (exists o, calls w (Server.upload cfg req) s
                 = [S3.DateNow; S3.UploadDone o]))
  \/ (~ (exists f m, Shape.accepted req f m)
      /\ calls w (UploadController.uploadVideo cfg req) s = []
      /\ calls w (Server.upload cfg req) s = []).
Proof.
  unfold calls. rewrite uploadVideo_exec, server_upload_exec. cbv zeta.
  destruct (accepted_split req) as [(f & m & Ha) | (Hn & Hc)].
  - left. split; [now exists f, m|].
    destruct (accepted_runs req f m Ha) as [Hd Hv].
    destruct Ha as (_ & Hf & Hm & _).
    rewrite Hd, Hf, Hm, str_or_some_nil, Hv, uploadVideoToS3_exec.
    destruct (respond w S3.DateNow s) as [now s1]. cbv zeta.
    split; answer_call; eexists; reflexivity.
  - right. split; [exact Hn|].
    destruct Hc as [Hd | [Hf | (f & Hf & Hv)]].
    + rewrite Hd. split; reflexivity.
    + destruct (differs _ _); rewrite ?Hf; split; reflexivity.
    + destruct (differs _ _); [split; reflexivity|]. rewrite Hf, Hv.
      destruct (File.mimetype f) as [m|]; [|split; reflexivity].
      rewrite str_or_some_nil in Hv. rewrite Hv. split; reflexivity.
Qed.

(** X3: every key an upload is started with lies under uploads/ and holds no
    white space, whatever the name of the file; in the service function and
    in both handlers. *)
Theorem uploaded_keys_scoped (cfg : config) (w : world) (s : state w)
    (req : request) (f : File.t) :
  Forall Shape.scoped_key
         (uploaded_keys (calls w (S3FileService.uploadVideoToS3 cfg f) s))
  /\ Forall Shape.scoped_key
            (uploaded_keys (calls w (UploadController.uploadVideo cfg req) s))
  /\ Forall Shape.scoped_key
            (uploaded_keys (calls w (Server.upload cfg req) s)).
Proof.
  assert (Hs : forall g,
             Forall Shape.scoped_key
               (uploaded_keys (calls w (S3FileService.uploadVideoToS3 cfg g) s))).
  { intros g. unfold calls. rewrite uploadVideoToS3_exec.
    destruct (respond w S3.DateNow s) as [now s1]. cbv zeta.
    answer_call. unfold uploaded_keys.
    cbn [fst flat_map app S3.UploadKey].
    constructor; [apply key_scoped | constructor]. }
  split; [apply Hs|]. split.
  - unfold calls. rewrite uploadVideo_exec. cbv zeta.
    destruct (differs _ _); [constructor|].
    destruct (file req) as [g|]; [|constructor].
    destruct (File.mimetype g) as [m|]; [|constructor].
    destruct (startsWith _ m); [|constructor].
    specialize (Hs g). unfold calls in Hs.
    destruct (exec w (S3FileService.uploadVideoToS3 cfg g) s) as [[cs r] s'].
    exact Hs.
  - unfold calls. rewrite server_upload_exec. cbv zeta.
    destruct (differs _ _); [constructor|].
    destruct (file req) as [g|]; [|constructor].
    destruct (startsWith _ _); [|constructor].
    destruct (respond w S3.DateNow s) as [now s1]. cbv zeta.
    answer_call. unfold uploaded_keys.
    cbn [fst flat_map app S3.UploadKey].
    constructor; [apply key_scoped | constructor].
Qed.

(** X4: with the trusted header and no file attached, an upload handler
    answers 400 with its "No file uploaded" message, makes no call and
    leaves the world as it was; both variants. *)
Theorem upload_without_file (cfg : config) (w : world) (s : state w)
    (req : request) :
  X_Client_Source req = Some Spec.trusted_client ->
  file req = None ->
  exec w (UploadController.uploadVideo cfg req) s
    = ([], status_json 400 (VObj [prop "error" (VStr (js "No file uploaded."))]), s)
  /\ exec w (Server.upload cfg req) s
     = ([], status_json 400
              (VObj [prop "error"
                       (VStr (js "No file uploaded (expected field "
                              ++ [dquote] ++ js "video" ++ [dquote] ++ js ")."))]),
        s).
Proof.
  intros Hs Hf. rewrite uploadVideo_exec, server_upload_exec. cbv zeta.
  rewrite Hs, Hf, differs_trusted. split; reflexivity.
Qed.

Lemma upload_without_file_witness :
  status (result (Sample.scripted (Sample.healthy None))
            (UploadController.uploadVideo Sample.cfg
               (Sample.request_of (Some (js "stickers-recorder")) None)) tt)
  = 400.
Proof.
  exact (f_equal (fun r => status (snd (fst r)))
           (proj1 (upload_without_file Sample.cfg
                     (Sample.scripted (Sample.healthy None)) tt
                     (Sample.request_of (Some (js "stickers-recorder")) None)
                     eq_refl eq_refl))).
Defined.

Section UploadOutcome.
Import S3FileService.

Lemma name_or_default_Forall (P : N -> Prop) (o : option jsstring) (d : jsstring) :
  (forall N, o = Some N -> Forall P N) -> Forall P d -> Forall P (str_or o d).
Proof.
  intros Ho Hd. destruct o as [[|c t]|]; simpl; try exact Hd.
  now apply Ho.
Qed.

Lemma key_encodable (T : Z) (name : jsstring) :
  Forall (fun c => Shape.is_surrogate c = false) name ->
  exists enc,
    Builtin.encodeURIComponent (object_key T (replace_ws name)) = Normal enc.
Proof.
  intros Hn. apply encodeURIComponent_total.
  apply object_key_Forall; [repeat constructor|].
  apply replace_ws_Forall; [reflexivity | exact Hn].
Qed.

Lemma key_code_units (T : Z) (name : jsstring) :
  Forall (fun c => Shape.code_unit c = true) name ->
  Forall (fun c => Shape.code_unit c = true) (object_key T (replace_ws name)).
Proof.
  intros Hn. apply object_key_Forall; [repeat constructor|].
  apply replace_ws_Forall; [reflexivity | exact Hn].
Qed.

Lemma object_url_host (cfg : config) (enc : jsstring) :
  object_url cfg enc = Shape.bucket_host cfg ++ enc.
Proof.
  unfold object_url, Shape.bucket_host. now rewrite <- !app_assoc.
Qed.

Lemma message_or_string_spec (e : error) :
  (message e <> [] -> Server.message_or_string e = message e)
  /\ (message e = [] -> Server.message_or_string e = name e).
Proof.
  unfold Server.message_or_string, error_toString.
  destruct (message e) as [|c m]; split; intros H; try congruence; simpl.
  - destruct (name e); reflexivity.
  - reflexivity.
Qed.

End UploadOutcome.

(** X5: an accepted upload whose file name holds no surrogate, in a world
    where uploads succeed, is answered with 200 and exactly message, key,
    url, contentType, size and source; the one upload carries the bytes of
    the file, its declared type and the configured bucket, and the url is
    the bucket host followed by the encoded key.  Both variants. *)
Theorem upload_accepted_succeeds (cfg : config) (w : world) (s : state w)
    (req : request) (f : File.t) (m : jsstring) :
  Shape.accepted req f m ->
  (forall N, File.originalname f = Some N ->
             Forall (fun c => Shape.is_surrogate c = false) N) ->
  (forall o s', fst (respond w (S3.UploadDone o) s') = Normal tt) ->
  (exists key enc,
      Builtin.encodeURIComponent key = Normal enc
      /\ calls w (UploadController.uploadVideo cfg req) s
         = [S3.DateNow;
            S3.UploadDone {| S3.Bucket := BUCKET cfg;
                             S3.UploadKey := key;
                             S3.Body := File.buffer f;
                             S3.ContentType := Some m;
                             S3.leavePartsOnError := None |}]
      /\ result w (UploadController.uploadVideo cfg req) s
         = json (VObj [prop "message" (VStr (js "Upload successful"));
                       prop "key" (VStr key);
                       prop "url" (VStr (Shape.bucket_host cfg ++ enc));
                       prop "contentType" (VStr m);
                       prop "size" (VNum (File.size f));
                       prop "source" (VStr Spec.trusted_client)]))
  /\ (exists key enc,
      Builtin.encodeURIComponent key = Normal enc
      /\ calls w (Server.upload cfg req) s
         = [S3.DateNow;
            S3.UploadDone {| S3.Bucket := BUCKET cfg;
                             S3.UploadKey := key;
                             S3.Body := File.buffer f;
                             S3.ContentType := Some m;
                             S3.leavePartsOnError := Some false |}]
      /\ result w (Server.upload cfg req) s
         = json (VObj [prop "message" (VStr (js "Upload successful"));
                       prop "key" (VStr key);
                       prop "url" (VStr (Shape.bucket_host cfg ++ enc));
                       prop "contentType" (VStr m);
                       prop "size" (VNum (File.size f));
                       prop "source" (VStr Spec.trusted_client)])).
Proof.
  intros Ha Hname Hup.
  destruct (accepted_runs req f m Ha) as [Hd Hv].
  destruct Ha as (Hs & Hf & Hm & _).
  unfold calls, result. rewrite uploadVideo_exec, server_upload_exec. cbv zeta.
  rewrite Hd, Hf, Hm, str_or_some_nil, Hv, uploadVideoToS3_exec, Hs.
  destruct (respond w S3.DateNow s) as [T s1]. cbv zeta. split.
  - destruct (key_encodable T (str_or (File.originalname f) (js "video.mp4")))
      as [enc He].
    { apply name_or_default_Forall; [exact Hname | repeat constructor]. }
    do 2 eexists. split; [exact He|].
    match goal with
    | |- context [respond w (S3.UploadDone ?o) s1] =>
        pose proof (Hup o s1) as Ho;
        destruct (respond w (S3.UploadDone o) s1) as [r s2]
    end.
    cbn [fst] in Ho. subst r. rewrite He, Hm, object_url_host.
    split; reflexivity.
  - destruct (key_encodable T
                (str_or (File.originalname f)
                   (if includes (js "mp4") m then js "video.mp4" else js "video.webm")))
      as [enc He].
    { apply name_or_default_Forall; [exact Hname|].
      destruct (includes (js "mp4") m); repeat constructor. }
    do 2 eexists. split; [exact He|].
    match goal with
    | |- context [respond w (S3.UploadDone ?o) s1] =>
        pose proof (Hup o s1) as Ho;
        destruct (respond w (S3.UploadDone o) s1) as [r s2]
    end.
    cbn [fst] in Ho. subst r. rewrite He.
    change (Server.object_url cfg enc) with (S3FileService.object_url cfg enc).
    rewrite object_url_host. split; reflexivity.
Qed.

Lemma upload_accepted_succeeds_witness :
  status (result (Sample.scripted (Sample.healthy None))
            (Server.upload Sample.cfg
               (Sample.request_of (Some (js "stickers-recorder"))
                  (Some (Sample.video (Some (js "my clip.mp4"))
                                      (Some (js "video/mp4")))))) tt)
  = 200.
Proof.
  destruct (upload_accepted_succeeds Sample.cfg
              (Sample.scripted (Sample.healthy None)) tt
              (Sample.request_of (Some (js "stickers-recorder"))
                 (Some (Sample.video (Some (js "my clip.mp4"))
                                     (Some (js "video/mp4")))))
              (Sample.video (Some (js "my clip.mp4")) (Some (js "video/mp4")))
              (js "video/mp4"))
    as [_ (key & enc & _ & _ & Hr)].
  - repeat split. now exists (js "mp4").
  - intros N E. inversion E. repeat constructor.
  - reflexivity.
  - rewrite Hr. reflexivity.
Defined.

(** X6: when the upload of an accepted request fails with an error [e], the
    handler answers 500 "Upload failed" after that single attempt: it does
    not retry.  The details are the message of [e]; server.js falls back to
    the name of [e] when the message is empty. *)
Theorem upload_failure_reported (cfg : config) (w : world) (s : state w)
    (req : request) (f : File.t) (m : jsstring) (e : error) :
  Shape.accepted req f m ->
  (forall o s', fst (respond w (S3.UploadDone o) s') = Throw e) ->
  (result w (UploadController.uploadVideo cfg req) s
     = status_json 500 (VObj [prop "error" (VStr (js "Upload failed"));
                              prop "details" (VStr (message e))])
   /\ List.length (Shape.uploads (calls w (UploadController.uploadVideo cfg req) s))
      = 1%nat)
  /\ (result w (Server.upload cfg req) s
        = status_json 500 (VObj [prop "error" (VStr (js "Upload failed"));
                                 prop "details" (VStr (Server.message_or_string e))])
      /\ List.length (Shape.uploads (calls w (Server.upload cfg req) s)) = 1%nat)
  /\ (message e <> [] -> Server.message_or_string e = message e)
  /\ (message e = [] -> Server.message_or_string e = name e).
Proof.
  intros Ha Hup.
  destruct (accepted_runs req f m Ha) as [Hd Hv].
  destruct Ha as (Hs & Hf & Hm & _).
  split; [|split; [|apply message_or_string_spec]];
    unfold calls, result;
    rewrite ?uploadVideo_exec, ?server_upload_exec; cbv zeta;
    rewrite Hd, Hf, ?Hm, ?str_or_some_nil, Hv, ?uploadVideoToS3_exec;
    destruct (respond w S3.DateNow s) as [T s1]; cbv zeta;
    match goal with
    | |- context [respond w (S3.UploadDone ?o) s1] =>
        pose proof (Hup o s1) as Ho;
        destruct (respond w (S3.UploadDone o) s1) as [r s2]
    end;
    cbn [fst] in Ho; subst r; split; reflexivity.
Qed.

Lemma upload_failure_reported_witness :
  result (Sample.scripted Sample.unreachable)
         (UploadController.uploadVideo Sample.cfg
            (Sample.request_of (Some (js "stickers-recorder"))
               (Some (Sample.video (Some (js "a.mp4")) (Some (js "video/mp4"))))))
         tt
  = status_json 500 (VObj [prop "error" (VStr (js "Upload failed"));
                           prop "details" (VStr (js "Access Denied"))]).
Proof.
  refine (proj1 (proj1 (upload_failure_reported Sample.cfg
            (Sample.scripted Sample.unreachable) tt
            (Sample.request_of (Some (js "stickers-recorder"))
               (Some (Sample.video (Some (js "a.mp4")) (Some (js "video/mp4")))))
            (Sample.video (Some (js "a.mp4")) (Some (js "video/mp4")))
            (js "video/mp4") Sample.AccessDenied _ _))).
  - repeat split. now exists (js "mp4").
  - reflexivity.
Defined.

(** X7: a file without a name, or with the empty name, is stored as
    video.mp4 by the service and its handler; server.js stores it as
    video.mp4 when the declared type contains "mp4" and as video.webm
    otherwise. *)
Theorem nameless_upload_keys (cfg : config) (w : world) (s : state w)
    (f : File.t) (T : Z) :
  File.originalname f = None \/ File.originalname f = Some [] ->
  fst (respond w S3.DateNow s) = T ->
  uploaded_keys (calls w (S3FileService.uploadVideoToS3 cfg f) s)
    = [js "uploads/" ++ of_int T ++ js "-video.mp4"]
  /\ forall req m,
      Shape.accepted req f m ->
      uploaded_keys (calls w (UploadController.uploadVideo cfg req) s)
        = [js "uploads/" ++ of_int T ++ js "-video.mp4"]
      /\ uploaded_keys (calls w (Server.upload cfg req) s)
         = [js "uploads/" ++ of_int T
            ++ (if includes (js "mp4") m then js "-video.mp4" else js "-video.webm")].
Proof.
  intros Hn HT.
  assert (Hd : forall d, str_or (File.originalname f) d = d)
    by (intros d; destruct Hn as [-> | ->]; reflexivity).
  assert (Hservice :
            uploaded_keys (calls w (S3FileService.uploadVideoToS3 cfg f) s)
            = [js "uploads/" ++ of_int T ++ js "-video.mp4"]).
  { unfold calls. rewrite uploadVideoToS3_exec, Hd.
    destruct (respond w S3.DateNow s) as [now s1]. cbn [fst] in HT. subst now.
    cbv zeta. answer_call. reflexivity. }
  split; [exact Hservice|]. intros req m Ha.
  destruct (accepted_runs req f m Ha) as [Hdiff Hv].
  destruct Ha as (Hs & Hf & Hm & _). split.
  - unfold calls in *. rewrite uploadVideo_exec. cbv zeta.
    rewrite Hdiff, Hf, Hm, Hv.
    destruct (exec w (S3FileService.uploadVideoToS3 cfg f) s) as [[cs r] s'].
    exact Hservice.
  - unfold calls. rewrite server_upload_exec. cbv zeta.
    rewrite Hdiff, Hf, Hm, str_or_some_nil, Hv, Hd.
    destruct (respond w S3.DateNow s) as [now s1]. cbn [fst] in HT. subst now.
    cbv zeta. answer_call. destruct (includes (js "mp4") m); reflexivity.
Qed.

Lemma nameless_upload_keys_witness :
  uploaded_keys
    (calls (Sample.scripted (Sample.healthy None))
       (S3FileService.uploadVideoToS3 Sample.cfg
          (Sample.video None (Some (js "video/webm")))) tt)
  = [js "uploads/1700000000000-video.mp4"].
Proof.
  exact (proj1 (nameless_upload_keys Sample.cfg
                  (Sample.scripted (Sample.healthy None)) tt
                  (Sample.video None (Some (js "video/webm")))
                  1700000000000 (or_introl eq_refl) eq_refl)).
Defined.

(** ** Decoding the encoded key *)

Section Decoding.

Lemma hex_value_digit (d : Z) :
  0 <= d < 16 -> Shape.hex_value (Builtin.hex_digit d) = Some d.
Proof.
  intros H.
  assert (E : d = 0 \/ d = 1 \/ d = 2 \/ d = 3 \/ d = 4 \/ d = 5 \/ d = 6
              \/ d = 7 \/ d = 8 \/ d = 9 \/ d = 10 \/ d = 11 \/ d = 12
              \/ d = 13 \/ d = 14 \/ d = 15) by lia.
  repeat (destruct E as [->|E]; [reflexivity|]). subst. reflexivity.
Qed.

Lemma unescape_escape_byte (b : Z) (rest : jsstring) :
  0 <= b < 256 ->
  Shape.unescape (Builtin.escape_byte b ++ rest)
  = option_map (cons b) (Shape.unescape rest).
Proof.
  intros H. unfold Builtin.escape_byte.
  cbn [app Shape.unescape]. cbn [N.eqb Pos.eqb].
  rewrite !hex_value_digit by (Z.to_euclidean_division_equations; lia).
  replace (16 * (b / 16) + b mod 16) with b
    by (Z.to_euclidean_division_equations; lia).
  destruct (Shape.unescape rest); reflexivity.
Qed.

Lemma unescape_escape_bytes (bs : list Z) (rest : jsstring) :
  Forall (fun b => 0 <= b < 256) bs ->
  Shape.unescape (flat_map Builtin.escape_byte bs ++ rest)
  = option_map (app bs) (Shape.unescape rest).
Proof.
  induction 1 as [|b bs Hb _ IH]; cbn [flat_map].
  - simpl. destruct (Shape.unescape rest); reflexivity.
  - rewrite <- app_assoc, unescape_escape_byte, IH by assumption.
    destruct (Shape.unescape rest); reflexivity.
Qed.

Lemma unreserved_ascii (z : Z) :
  Builtin.uri_unreserved z = true -> 0 <= z < 128 /\ z <> 37.
Proof.
  unfold Builtin.uri_unreserved. intros H.
  repeat (apply orb_true_iff in H; destruct H as [H|H]);
    repeat (apply andb_true_iff in H; destruct H as [H H']);
    repeat match goal with
           | X : (_ <=? _) = true |- _ => apply Z.leb_le in X
           | X : (_ =? _) = true |- _ => apply Z.eqb_eq in X
           end; lia.
Qed.

Lemma unescape_unreserved (c : N) (rest : jsstring) :
  Builtin.uri_unreserved (Z.of_N c) = true ->
  Shape.unescape (c :: rest)
  = option_map (cons (Z.of_N c)) (Shape.unescape rest).
Proof.
  intros H. cbn [Shape.unescape]. rewrite H.
  destruct (N.eqb_spec c 37) as [->|_]; [discriminate H | reflexivity].
Qed.

Lemma utf8_decode_utf8 (cp : Z) (bs : list Z) :
  0 <= cp < 1114112 ->
  Shape.utf8_decode (Builtin.utf8 cp ++ bs)
  = option_map (app (Shape.code_units cp)) (Shape.utf8_decode bs).
Proof.
  intros H. unfold Builtin.utf8.
  destruct (Z.ltb_spec cp 128) as [H1|H1].
  - cbn [app Shape.utf8_decode].
    destruct (Z.ltb_spec cp 128); [reflexivity | lia].
  - destruct (Z.ltb_spec cp 2048) as [H2|H2].
    + cbn [app Shape.utf8_decode]. unfold Shape.continuation.
      repeat match goal with
             | |- context [?a <? ?b] =>
                 destruct (Z.ltb_spec a b);
                 try (exfalso; Z.to_euclidean_division_equations; lia)
             | |- context [?a <=? ?b] =>
                 destruct (Z.leb_spec a b);
                 try (exfalso; Z.to_euclidean_division_equations; lia)
             end.
      cbn [andb]. do 2 f_equal. f_equal.
      Z.to_euclidean_division_equations; lia.
    + destruct (Z.ltb_spec cp 65536) as [H3|H3].
      * cbn [app Shape.utf8_decode]. unfold Shape.continuation.
        repeat match goal with
               | |- context [?a <? ?b] =>
                   destruct (Z.ltb_spec a b);
                   try (exfalso; Z.to_euclidean_division_equations; lia)
               | |- context [?a <=? ?b] =>
                   destruct (Z.leb_spec a b);
                   try (exfalso; Z.to_euclidean_division_equations; lia)
               end.
        cbn [andb]. do 2 f_equal. f_equal.
        Z.to_euclidean_division_equations; lia.
      * cbn [app Shape.utf8_decode]. unfold Shape.continuation.
        repeat match goal with
               | |- context [?a <? ?b] =>
                   destruct (Z.ltb_spec a b);
                   try (exfalso; Z.to_euclidean_division_equations; lia)
               | |- context [?a <=? ?b] =>
                   destruct (Z.leb_spec a b);
                   try (exfalso; Z.to_euclidean_division_equations; lia)
               end.
        cbn [andb]. do 2 f_equal. f_equal.
        Z.to_euclidean_division_equations; lia.
Qed.

Lemma code_units_unit (c : N) :
  Z.of_N c < 65536 -> Shape.code_units (Z.of_N c) = [c].
Proof.
  intros H. unfold Shape.code_units.
  destruct (Z.ltb_spec (Z.of_N c) 65536); [|lia]. now rewrite N2Z.id.
Qed.

Lemma code_units_pair (c d : N) :
  Builtin.is_high_surrogate (Z.of_N c) = true ->
  Builtin.is_low_surrogate (Z.of_N d) = true ->
  Shape.code_units ((Z.of_N c - 55296) * 1024 + (Z.of_N d - 56320) + 65536)
  = [c; d].
Proof.
  unfold Builtin.is_high_surrogate, Builtin.is_low_surrogate.
  intros Hh Hl. apply andb_true_iff in Hh, Hl.
  destruct Hh as [H1 H2], Hl as [H3 H4]. apply Z.leb_le in H1, H2, H3, H4.
  unfold Shape.code_units.
  destruct (Z.ltb_spec ((Z.of_N c - 55296) * 1024 + (Z.of_N d - 56320) + 65536)
                       65536); [lia|].
  replace (55296 + ((Z.of_N c - 55296) * 1024 + (Z.of_N d - 56320) + 65536 - 65536)
                   / 1024) with (Z.of_N c)
    by (Z.to_euclidean_division_equations; lia).
  replace (56320 + ((Z.of_N c - 55296) * 1024 + (Z.of_N d - 56320) + 65536 - 65536)
                   mod 1024) with (Z.of_N d)
    by (Z.to_euclidean_division_equations; lia).
  now rewrite !N2Z.id.
Qed.

(** Decoding what [encodeURIComponent] returns gives the string back. *)
Lemma decode_encodeURIComponent (s : jsstring) :
  Forall (fun c => Shape.code_unit c = true) s ->
  forall enc, Builtin.encodeURIComponent s = Normal enc ->
              Shape.decode enc = Some s.
Proof.
  intros Hs enc E.
  enough (H : exists bs, Shape.unescape enc = Some bs
                         /\ Shape.utf8_decode bs = Some s).
  { destruct H as (bs & Hu & Hd). unfold Shape.decode. now rewrite Hu. }
  remember (List.length s) as n eqn:En.
  assert (Hn : (List.length s <= n)%nat) by lia. clear En.
  revert s Hn Hs enc E. induction n as [|n IH]; intros s Hn Hs enc E.
  - destruct s; [|simpl in Hn; lia]. inversion E. now exists [].
  - destruct s as [|c t]; [inversion E; now exists []|].
    inversion Hs as [|? ? Hc Ht]; subst.
    unfold Shape.code_unit in Hc. apply N.ltb_lt in Hc.
    assert (Hz : 0 <= Z.of_N c < 65536) by lia.
    cbn [Builtin.encodeURIComponent] in E. cbv zeta in E.
    destruct (Builtin.uri_unreserved (Z.of_N c)) eqn:Eu.
    + destruct (Builtin.encodeURIComponent t) as [enc'|] eqn:Et; [|discriminate].
      inversion E. subst enc.
      destruct (IH t) with (enc := enc') as (bs & Hu & Hd);
        [simpl in Hn; lia | assumption | assumption |].
      exists (Z.of_N c :: bs). split.
      * rewrite unescape_unreserved, Hu by assumption. reflexivity.
      * destruct (unreserved_ascii _ Eu) as [Ha _].
        cbn [Shape.utf8_decode].
        destruct (Z.ltb_spec (Z.of_N c) 128); [|lia].
        rewrite Hd, code_units_unit by lia. reflexivity.
    + destruct (Builtin.is_low_surrogate (Z.of_N c)); [discriminate|].
      destruct (Builtin.is_high_surrogate (Z.of_N c)) eqn:Eh.
      * destruct t as [|d t']; [discriminate|].
        destruct (Builtin.is_low_surrogate (Z.of_N d)) eqn:El; [|discriminate].
        destruct (Builtin.encodeURIComponent t') as [enc'|] eqn:Et; [|discriminate].
        inversion E. subst enc. inversion Ht as [|? ? Hd' Ht']; subst.
        destruct (IH t') with (enc := enc') as (bs & Hu & Hd);
          [simpl in Hn; lia | assumption | assumption |].
        assert (Hcp : 0 <= (Z.of_N c - 55296) * 1024 + (Z.of_N d - 56320) + 65536
                      < 1114112).
        { unfold Builtin.is_high_surrogate in Eh.
          unfold Builtin.is_low_surrogate in El.
          apply andb_true_iff in Eh, El. destruct Eh as [E1 E2], El as [E3 E4].
          apply Z.leb_le in E1, E2, E3, E4. lia. }
        eexists. split.
        -- unfold Builtin.escape_code_point.
           rewrite unescape_escape_bytes, Hu by now apply utf8_bytes.
           reflexivity.
        -- rewrite utf8_decode_utf8, Hd, code_units_pair by assumption.
           reflexivity.
      * destruct (Builtin.encodeURIComponent t) as [enc'|] eqn:Et; [|discriminate].
        inversion E. subst enc.
        destruct (IH t) with (enc := enc') as (bs & Hu & Hd);
          [simpl in Hn; lia | assumption | assumption |].
        eexists. split.
        -- unfold Builtin.escape_code_point.
           rewrite unescape_escape_bytes, Hu by (apply utf8_bytes; lia).
           reflexivity.
        -- rewrite utf8_decode_utf8, Hd, code_units_unit by lia.
           reflexivity.
Qed.

End Decoding.

Example decode_after_encode :
  match Builtin.encodeURIComponent [99; 233; 32; 47; 8364; 55357; 56832]%N with
  | Normal enc => (enc, Shape.decode enc)
  | Throw _ => ([], None)
  end
  = (js "c%C3%A9%20%2F%E2%82%AC%F0%9F%98%80",
     Some [99; 233; 32; 47; 8364; 55357; 56832]%N).
Proof. vm_compute. reflexivity. Qed.



(** X9: the two upload handlers store a file under the same key, unless the
    file is nameless and its declared type lacks "mp4" (where server.js
    picks video.webm). *)
Theorem upload_variants_same_key (cfg : config) (w : world) (s : state w)
    (req : request) :
  (forall f, file req = Some f ->
             str_or (File.originalname f) [] <> []
             \/ includes (js "mp4") (str_or (File.mimetype f) []) = true) ->
  uploaded_keys (calls w (UploadController.uploadVideo cfg req) s)
  = uploaded_keys (calls w (Server.upload cfg req) s).
Proof.
  intros Hname. unfold calls.
  rewrite uploadVideo_exec, server_upload_exec. cbv zeta.
  destruct (differs _ _); [reflexivity|].
  destruct (file req) as [f|]; [|reflexivity].
  specialize (Hname f eq_refl).
  destruct (File.mimetype f) as [m|] eqn:Em; [|reflexivity].
  rewrite str_or_some_nil in *. destruct (startsWith _ m); [|reflexivity].
  rewrite uploadVideoToS3_exec.
  assert (E : str_or (File.originalname f)
                (if includes (js "mp4") m then js "video.mp4" else js "video.webm")
              = str_or (File.originalname f) (js "video.mp4")).
  { destruct Hname as [Hn | Hi]; [|now rewrite Hi].
    destruct (File.originalname f) as [[|c t]|]; simpl in *; congruence. }
  rewrite E. destruct (respond w S3.DateNow s) as [T s1]. cbv zeta.
  do 2 answer_call. reflexivity.
Qed.

Lemma upload_variants_same_key_witness :
  uploaded_keys
    (calls (Sample.scripted (Sample.healthy None))
       (UploadController.uploadVideo Sample.cfg
          (Sample.request_of (Some (js "stickers-recorder"))
             (Some (Sample.video None (Some (js "video/mp4")))))) tt)
  = uploaded_keys
      (calls (Sample.scripted (Sample.healthy None))
         (Server.upload Sample.cfg
            (Sample.request_of (Some (js "stickers-recorder"))
               (Some (Sample.video None (Some (js "video/mp4")))))) tt).
Proof.
  apply upload_variants_same_key.
  intros f E. inversion E. right. reflexivity.
Defined.

(** ** The listing, call by call *)

Section ListingRuns.
Import S3FileService.

Lemma getFiles_unfold (cfg : config) (w : world) (s : state w) :
  exec w (FileController.getFiles cfg) s =
  let '(cs, r, s') := exec w (listRecentFiles cfg (Some 5)) s in
  (cs,
   match r with
   | Normal files =>
       json (VObj [prop "count" (VNum (Z.of_nat (List.length files)));
                   prop "files" (VArr (List.map Entry.to_val files))])
   | Throw err =>
       status_json 500 (VObj [prop "error" (VStr (js "Failed to list files"));
                              prop "details" (VStr (message err))])
   end, s').
Proof.
  unfold FileController.getFiles. rewrite exec_handle, exec_seq.
  destruct (exec w (listRecentFiles cfg (Some 5)) s) as [[cs [files|err]] s1];
    cbn [exec ret]; [rewrite app_nil_r|]; reflexivity.
Qed.

Lemma server_files_full (cfg : config) (w : world) (s : state w) :
  exec w (Server.files cfg) s =
  let (r, s1) := respond w (S3.ListObjectsV2Command (BUCKET cfg) PREFIX 200) s in
  let listed := S3.ListObjectsV2Command (BUCKET cfg) PREFIX 200 in
  let failed err :=
    status_json 500
      (VObj [prop "error" (VStr (js "Failed to list files"));
             prop "code" (or_else (VStr (name err)) (VStr []));
             prop "details" (VStr (Server.message_or_string err));
             prop "bucket" (VStr (BUCKET cfg));
             prop "prefix" (VStr Server.PREFIX)]) in
  let no_files :=
    json (VObj [prop "message" (VStr (js "No files found in uploads/"));
                prop "bucket" (VStr (BUCKET cfg))]) in
  match r with
  | Throw err => ([listed], failed err, s1)
  | Normal data =>
      match S3.Contents data with
      | None | Some [] => ([listed], no_files, s1)
      | Some L =>
          let '(cs, a, s2) :=
            exec w (Promise_all
                      (List.map (sign_item cfg 300)
                         (Builtin.slice0
                            (Builtin.sort by_date_desc (List.filter real_object L))
                            5))) s1 in
          (listed :: cs,
           match a with
           | Normal files =>
               json (VObj [prop "count" (VNum (Z.of_nat (List.length files)));
                           prop "bucket" (VStr (BUCKET cfg));
                           prop "prefix" (VStr Server.PREFIX);
                           prop "files" (VArr (List.map Entry.to_val files))])
           | Throw err => failed err
           end, s2)
      end
  end.
Proof.
  unfold Server.files. rewrite exec_handle.
  unfold send_list, seq at 1. cbn [bind exec].
  change Server.PREFIX with PREFIX.
  destruct (respond w (S3.ListObjectsV2Command (BUCKET cfg) PREFIX 200) s)
    as [[data|err] s1]; cbn [bind exec]; [|reflexivity].
  destruct (S3.Contents data) as [[|o L]|]; try reflexivity.
  rewrite exec_seq.
  change (List.map (Server.sign_item cfg (60 * 5)))
    with (List.map (sign_item cfg 300)).
  destruct (exec w _ s1) as [[cs [files|err]] s2];
    cbn [exec ret]; [rewrite app_nil_r|]; reflexivity.
Qed.

Lemma slice0_length {A} (l : list A) (e : Z) :
  0 <= e -> (List.length (Builtin.slice0 l e) <= Z.to_nat e)%nat.
Proof.
  intros He. unfold Builtin.slice0.
  destruct (Z.ltb_spec e 0); [lia|].
  rewrite length_firstn. lia.
Qed.

Lemma slice0_negative {A} (l : list A) (k : nat) :
  (0 < k)%nat ->
  Builtin.slice0 l (- Z.of_nat k) = firstn (List.length l - k) l.
Proof.
  intros Hk. unfold Builtin.slice0.
  destruct (Z.ltb_spec (- Z.of_nat k) 0); [|lia].
  f_equal. lia.
Qed.

(** With a signer that answers by a function of its request, every signed
    entry carries the answer for its own key. *)
Lemma gather_sign_urls (cfg : config) (w : world) (e : Z)
    (sign : jsstring -> option jsstring -> Z -> jsstring)
    (items : list S3.object) (s : state w) :
  (forall b k x s', fst (respond w (S3.GetSignedUrl b k x) s') = Normal (sign b k x)) ->
  snd (fst (exec w (gather (List.map (sign_item cfg e) items)) s))
  = List.map (fun it =>
                Normal {| Entry.key := S3.Key it;
                          Entry.size := S3.Size it;
                          Entry.lastModified := S3.LastModified it;
                          Entry.url := sign (BUCKET cfg) (S3.Key it) e |}) items.
Proof.
  intros Hsign. revert s. induction items as [|it rest IH]; intros s.
  - reflexivity.
  - cbn [List.map gather]. rewrite exec_bind.
    unfold sign_item at 1, getSignedUrl, seq. cbn [bind exec].
    pose proof (Hsign (BUCKET cfg) (S3.Key it) e s) as Hr.
    destruct (respond w (S3.GetSignedUrl (BUCKET cfg) (S3.Key it) e) s)
      as [r s1].
    cbn [fst] in Hr. subst r. cbn [exec ret]. rewrite exec_bind.
    specialize (IH s1).
    destruct (exec w (gather (List.map (sign_item cfg e) rest)) s1)
      as [[cs rs] s2].
    cbn [fst snd] in *. subst rs. reflexivity.
Qed.

Lemma settle_map_Normal {A} (l : list A) :
  settle (List.map Normal l) = Ret (Normal l).
Proof.
  unfold settle.
  assert (H : rejections (List.map Normal l) = [] /\
              fulfilled (List.map Normal l) = l).
  { induction l as [|a l [IH1 IH2]]; simpl; [now split|].
    split; [exact IH1 | now rewrite IH2]. }
  destruct H as [-> ->]. reflexivity.
Qed.

End ListingRuns.

(** X10: in every world the two variants of GET /files make the same calls:
    one listing of at most 200 keys under the prefix, then at most five
    signing requests, each for 300 seconds.  They never upload and never
    check the bucket. *)
Theorem files_variants_same_calls (cfg : config) (w : world) (s : state w) :
  calls w (FileController.getFiles cfg) s = calls w (Server.files cfg) s
  /\ exists signs,
      calls w (FileController.getFiles cfg) s
        = S3.ListObjectsV2Command (BUCKET cfg) S3FileService.PREFIX 200 :: signs
      /\ (List.length signs <= 5)%nat
      /\ Forall (fun c => exists k, c = S3.GetSignedUrl (BUCKET cfg) k 300) signs.
Proof.
  unfold calls. rewrite getFiles_unfold, server_files_full, listRecentFiles_unfold.
  destruct (respond w (S3.ListObjectsV2Command (BUCKET cfg)
                         S3FileService.PREFIX 200) s) as [[data|err] s1];
    cbv zeta.
  - destruct (S3.Contents data) as [[|o L]|].
    + cbn. split; [reflexivity|]. exists []. split; [reflexivity|]. split; [simpl; lia | constructor].
    + set (recent := Builtin.slice0 _ 5).
      destruct (exec_Promise_all_sign cfg w 300 recent s1) as (Hc & _).
      unfold calls in Hc.
      destruct (exec w (Promise_all (List.map (S3FileService.sign_item cfg 300)
                                              recent)) s1) as [[cs a] s2].
      cbn [fst snd] in *. split; [reflexivity|].
      exists cs. split; [reflexivity|]. subst cs. split.
      * rewrite length_map. subst recent.
        now apply (slice0_length _ 5).
      * rewrite Forall_map. rewrite Forall_forall. intros it _. now eexists.
    + cbn. split; [reflexivity|]. exists []. split; [reflexivity|]. split; [simpl; lia | constructor].
  - cbn. split; [reflexivity|]. exists []. split; [reflexivity|]. split; [simpl; lia | constructor].
Qed.

(** X11: with a signer that answers by a function of its request, every
    entry [listRecentFiles] returns carries the URL signed for the entry's
    own key, in the configured bucket, for 300 seconds. *)
Theorem signed_url_of_each_entry (cfg : config) (w : world) (s s1 : state w)
    (data : S3.list_output) (limit : option Z)
    (sign : jsstring -> option jsstring -> Z -> jsstring) :
  (forall b k x s', fst (respond w (S3.GetSignedUrl b k x) s') = Normal (sign b k x)) ->
  respond w (S3.ListObjectsV2Command (BUCKET cfg) S3FileService.PREFIX 200) s
    = (Normal data, s1) ->
  exists entries,
    result w (S3FileService.listRecentFiles cfg limit) s = Normal entries
    /\ Forall (fun en => S3FileService.Entry.url en
                         = sign (BUCKET cfg) (S3FileService.Entry.key en) 300)
              entries.
Proof.
  intros Hsign Hl. unfold result. rewrite listRecentFiles_unfold, Hl.
  destruct (S3.Contents data) as [L|]; [|exists []; split; [reflexivity | constructor]].
  set (recent := Builtin.slice0 _ _).
  pose proof (gather_sign_urls cfg w 300 sign recent s1 Hsign) as Hg.
  unfold Promise_all. rewrite exec_bind.
  destruct (exec w (gather (List.map (S3FileService.sign_item cfg 300) recent)) s1)
    as [[cs rs] s2].
  cbn [fst snd] in Hg. subst rs.
  rewrite <- (map_map
                (fun it => {| S3FileService.Entry.key := S3.Key it;
                              S3FileService.Entry.size := S3.Size it;
                              S3FileService.Entry.lastModified := S3.LastModified it;
                              S3FileService.Entry.url :=
                                sign (BUCKET cfg) (S3.Key it) 300 |})
                Normal).
  rewrite settle_map_Normal. cbn [exec fst snd].
  eexists. split; [reflexivity|].
  rewrite Forall_map. rewrite Forall_forall. intros it _. reflexivity.
Qed.

Lemma signed_url_of_each_entry_witness :
  exists entries,
    result (Sample.scripted (Sample.healthy (Some Sample.ten_objects)))
           (S3FileService.listRecentFiles Sample.cfg (Some 3)) tt = Normal entries
    /\ Forall (fun en => S3FileService.Entry.url en
                         = js "https://signed/"
                           ++ str_or (S3FileService.Entry.key en) []
                           ++ js "?expires=300")
              entries.
Proof.
  exact (signed_url_of_each_entry Sample.cfg
           (Sample.scripted (Sample.healthy (Some Sample.ten_objects))) tt tt _
           (Some 3) (fun _ k e => js "https://signed/" ++ str_or k []
                                  ++ js "?expires=" ++ of_int e)
           (fun _ _ _ _ => eq_refl) eq_refl).
Defined.

(** X12: a listing that holds only entries without a key or without a size
    greater than 0 (the marker of the folder, say) is answered with a count
    of 0 and no files, after the listing call alone; server.js keeps its
    "No files found" message for a listing that holds nothing at all. *)
Theorem listing_of_markers_only (cfg : config) (w : world) (s s1 : state w)
    (data : S3.list_output) (L : list S3.object) :
  respond w (S3.ListObjectsV2Command (BUCKET cfg) S3FileService.PREFIX 200) s
    = (Normal data, s1) ->
  S3.Contents data = Some L ->
  L <> [] ->
  Forall (fun o => ~ Spec.has_key_and_size o) L ->
  exec w (Server.files cfg) s
    = ([S3.ListObjectsV2Command (BUCKET cfg) S3FileService.PREFIX 200],
       json (VObj [prop "count" (VNum 0);
                   prop "bucket" (VStr (BUCKET cfg));
                   prop "prefix" (VStr Server.PREFIX);
                   prop "files" (VArr [])]),
       s1)
  /\ exec w (FileController.getFiles cfg) s
     = ([S3.ListObjectsV2Command (BUCKET cfg) S3FileService.PREFIX 200],
        json (VObj [prop "count" (VNum 0); prop "files" (VArr [])]),
        s1).
Proof.
  intros Hl HL Hne Hm.
  assert (Hf : List.filter S3FileService.real_object L = []).
  { clear - Hm. induction Hm as [|o L Ho _ IH]; [reflexivity|].
    simpl. destruct (S3FileService.real_object o) eqn:E; [|exact IH].
    apply real_object_spec in E. contradiction. }
  rewrite getFiles_unfold, server_files_full, listRecentFiles_unfold, Hl, HL, Hf.
  destruct L as [|o L']; [congruence|]. split; reflexivity.
Qed.

Lemma listing_of_markers_only_witness :
  result (Sample.scripted (Sample.healthy (Some [Sample.obj "uploads/" 0 99])))
         (Server.files Sample.cfg) tt
  = json (VObj [prop "count" (VNum 0);
                prop "bucket" (VStr (js "pod-videos"));
                prop "prefix" (VStr (js "uploads/"));
                prop "files" (VArr [])]).
Proof.
  refine (f_equal (fun r => snd (fst r))
            (proj1 (listing_of_markers_only Sample.cfg
                      (Sample.scripted
                         (Sample.healthy (Some [Sample.obj "uploads/" 0 99])))
                      tt tt _ [Sample.obj "uploads/" 0 99] eq_refl eq_refl _ _))).
  - discriminate.
  - repeat constructor. intros [_ (n & Hn & Hpos)]. inversion Hn. subst. lia.
Defined.

(** X13: [listRecentFiles(0)] returns the empty sequence and signs nothing,
    and a negative limit [-k] counts from the end, as [slice] does: the
    call returns all real objects but the [k] oldest. *)
Theorem listRecentFiles_small_limits (cfg : config) (w : world) (s s1 : state w)
    (data : S3.list_output) (L : list S3.object) :
  respond w (S3.ListObjectsV2Command (BUCKET cfg) S3FileService.PREFIX 200) s
    = (Normal data, s1) ->
  S3.Contents data = Some L ->
  let sorted :=
    Builtin.sort S3FileService.by_date_desc
                 (List.filter S3FileService.real_object L) in
  exec w (S3FileService.listRecentFiles cfg (Some 0)) s
    = ([S3.ListObjectsV2Command (BUCKET cfg) S3FileService.PREFIX 200],
       Normal [], s1)
  /\ forall (k : nat) entries,
      (0 < k)%nat ->
      result w (S3FileService.listRecentFiles cfg (Some (- Z.of_nat k))) s
        = Normal entries ->
      List.map Spec.object_of entries = firstn (List.length sorted - k) sorted.
Proof.
  intros Hl HL sorted. split.
  - rewrite listRecentFiles_unfold, Hl, HL. fold sorted.
    change (Builtin.slice0 sorted 0) with (Builtin.slice0 sorted (Z.of_nat 0)).
    rewrite slice0_firstn. reflexivity.
  - intros k entries Hk He.
    destruct (listRecentFiles_exec cfg w s s1 (Some (- Z.of_nat k)) data L Hl HL)
      as (_ & Hr & _).
    rewrite (Hr entries He). fold sorted. now apply slice0_negative.
Qed.

Lemma listRecentFiles_small_limits_witness :
  exec (Sample.scripted (Sample.healthy (Some Sample.ten_objects)))
       (S3FileService.listRecentFiles Sample.cfg (Some 0)) tt
  = ([S3.ListObjectsV2Command (js "pod-videos") (js "uploads/") 200],
     Normal [], tt).
Proof.
  exact (proj1 (listRecentFiles_small_limits Sample.cfg
                  (Sample.scripted (Sample.healthy (Some Sample.ten_objects)))
                  tt tt _ Sample.ten_objects eq_refl eq_refl)).
Defined.

(** X14: when the listing call fails, [listRecentFiles] throws that very
    error without signing anything, and both handlers answer 500 after the
    single call, naming the error in their details. *)
Theorem listing_error_propagates (cfg : config) (w : world) (s s1 : state w)
    (e : error) (limit : option Z) :
  respond w (S3.ListObjectsV2Command (BUCKET cfg) S3FileService.PREFIX 200) s
    = (Throw e, s1) ->
  exec w (S3FileService.listRecentFiles cfg limit) s
    = ([S3.ListObjectsV2Command (BUCKET cfg) S3FileService.PREFIX 200],
       Throw e, s1)
  /\ exec w (FileController.getFiles cfg) s
     = ([S3.ListObjectsV2Command (BUCKET cfg) S3FileService.PREFIX 200],
        status_json 500 (VObj [prop "error" (VStr (js "Failed to list files"));
                               prop "details" (VStr (message e))]),
        s1)
  /\ exec w (Server.files cfg) s
     = ([S3.ListObjectsV2Command (BUCKET cfg) S3FileService.PREFIX 200],
        status_json 500
          (VObj [prop "error" (VStr (js "Failed to list files"));
                 prop "code" (VStr (name e));
                 prop "details" (VStr (Server.message_or_string e));
                 prop "bucket" (VStr (BUCKET cfg));
                 prop "prefix" (VStr Server.PREFIX)]),
        s1).
Proof.
  intros Hl.
  rewrite getFiles_unfold, server_files_full, !listRecentFiles_unfold, Hl.
  cbv zeta. repeat split.
  unfold or_else. destruct (name e); reflexivity.
Qed.

Lemma listing_error_propagates_witness :
  result (Sample.scripted Sample.unreachable)
         (S3FileService.listRecentFiles Sample.cfg (Some 5)) tt
  = Throw Sample.AccessDenied.
Proof.
  exact (f_equal (fun r => snd (fst r))
           (proj1 (listing_error_propagates Sample.cfg
                     (Sample.scripted Sample.unreachable) tt tt
                     Sample.AccessDenied (Some 5) eq_refl))).
Defined.

(** ** The order in which S3 lists the objects *)

Section ListingOrder.
Import S3FileService.

Lemma filter_perm {A} (p : A -> bool) (l l' : list A) :
  Permutation l l' -> Permutation (List.filter p l) (List.filter p l').
Proof.
  induction 1 as [|x l l' _ IH|x y l|l l' l'' _ IH1 _ IH2]; simpl.
  - constructor.
  - destruct (p x); [now constructor | exact IH].
  - destruct (p x), (p y); try reflexivity. apply perm_swap.
  - now transitivity (List.filter p l').
Qed.

(** Two orderings, newest first, of the same objects are one ordering when
    no two objects share their date. *)
Lemma newest_first_unique (l1 l2 : list S3.object) :
  Spec.newest_first l1 -> Spec.newest_first l2 ->
  Permutation l1 l2 ->
  NoDup (List.map S3.LastModified l1) ->
  l1 = l2.
Proof.
  unfold Spec.newest_first. revert l2.
  induction l1 as [|x t1 IH]; intros l2 H1 H2 Hp Hd.
  - apply Permutation_nil in Hp. now subst.
  - destruct l2 as [|y t2];
      [apply Permutation_sym, Permutation_nil in Hp; discriminate|].
    inversion H1 as [|? ? Ht1 Hx]; subst.
    inversion H2 as [|? ? Ht2 Hy]; subst.
    inversion Hd as [|? ? Hnin Hd']; subst.
    rewrite Forall_forall in Hx, Hy.
    assert (E : x = y).
    { assert (Hxin : In x (y :: t2))
        by (apply (Permutation_in _ Hp); now left).
      assert (Hyin : In y (x :: t1))
        by (apply (Permutation_in _ (Permutation_sym Hp)); now left).
      destruct Hxin as [->|Hxin]; [reflexivity|].
      destruct Hyin as [->|Hyin]; [reflexivity|].
      exfalso. apply Hnin.
      assert (S3.LastModified x = S3.LastModified y)
        by (specialize (Hx y Hyin); specialize (Hy x Hxin); lia).
      rewrite H. now apply in_map. }
    subst y. f_equal. apply IH; try assumption.
    now apply Permutation_cons_inv in Hp.
Qed.

Lemma sort_of_permutation (l l' : list S3.object) :
  Permutation l l' ->
  NoDup (List.map S3.LastModified l) ->
  Builtin.sort by_date_desc l = Builtin.sort by_date_desc l'.
Proof.
  intros Hp Hd. apply newest_first_unique.
  - apply sort_newest_first.
  - apply sort_newest_first.
  - rewrite !sort_perm. exact Hp.
  - eapply Permutation_NoDup; [|exact Hd].
    apply Permutation_map, Permutation_sym, sort_perm.
Qed.

End ListingOrder.

(** X15: when no two real objects share their last-modified time, the order
    in which S3 lists the objects does not matter: two listings of the same
    objects lead to the same signing requests and to the same entries. *)
Theorem listing_order_irrelevant (cfg : config) (w w' : world)
    (s s1 : state w) (s' s1' : state w') (data data' : S3.list_output)
    (L L' : list S3.object) (limit : option Z) :
  respond w (S3.ListObjectsV2Command (BUCKET cfg) S3FileService.PREFIX 200) s
    = (Normal data, s1) ->
  respond w' (S3.ListObjectsV2Command (BUCKET cfg) S3FileService.PREFIX 200) s'
    = (Normal data', s1') ->
  S3.Contents data = Some L ->
  S3.Contents data' = Some L' ->
  Permutation L L' ->
  NoDup (List.map S3.LastModified (List.filter S3FileService.real_object L)) ->
  signing_requests (calls w (S3FileService.listRecentFiles cfg limit) s)
    = signing_requests (calls w' (S3FileService.listRecentFiles cfg limit) s')
  /\ forall entries entries',
      result w (S3FileService.listRecentFiles cfg limit) s = Normal entries ->
      result w' (S3FileService.listRecentFiles cfg limit) s' = Normal entries' ->
      List.map Spec.object_of entries = List.map Spec.object_of entries'.
Proof.
  intros Hl Hl' HL HL' Hp Hd.
  destruct (listRecentFiles_exec cfg w s s1 limit data L Hl HL) as (Hc & Hr & _).
  destruct (listRecentFiles_exec cfg w' s' s1' limit data' L' Hl' HL')
    as (Hc' & Hr' & _).
  assert (E : Builtin.sort S3FileService.by_date_desc
                (List.filter S3FileService.real_object L)
              = Builtin.sort S3FileService.by_date_desc
                  (List.filter S3FileService.real_object L'))
    by (apply sort_of_permutation; [now apply filter_perm | exact Hd]).
  rewrite E in Hc, Hr. split.
  - now rewrite Hc, Hc'.
  - intros entries entries' He He'. now rewrite (Hr _ He), (Hr' _ He').
Qed.

Lemma listing_order_irrelevant_witness :
  signing_requests
    (calls (Sample.scripted
              (Sample.healthy (Some [Sample.obj "uploads/a" 10 1004;
                                     Sample.obj "uploads/b" 11 1009])))
           (S3FileService.listRecentFiles Sample.cfg (Some 5)) tt)
  = signing_requests
      (calls (Sample.scripted
                (Sample.healthy (Some [Sample.obj "uploads/b" 11 1009;
                                       Sample.obj "uploads/a" 10 1004])))
             (S3FileService.listRecentFiles Sample.cfg (Some 5)) tt).
Proof.
  refine (proj1 (listing_order_irrelevant Sample.cfg
            (Sample.scripted (Sample.healthy (Some [Sample.obj "uploads/a" 10 1004;
                                                    Sample.obj "uploads/b" 11 1009])))
            (Sample.scripted (Sample.healthy (Some [Sample.obj "uploads/b" 11 1009;
                                                    Sample.obj "uploads/a" 10 1004])))
            tt tt tt tt _ _ _ _ (Some 5) eq_refl eq_refl eq_refl eq_refl _ _)).
  - apply perm_swap.
  - repeat constructor; simpl; intuition discriminate.
Defined.

(** X16: the count GET /files reports is the number of real objects in the
    listing, capped at 5; in both variants, when the signer works. *)
Theorem files_count_capped (cfg : config) (w : world) (s s1 : state w)
    (data : S3.list_output) (L : list S3.object) :
  respond w (S3.ListObjectsV2Command (BUCKET cfg) S3FileService.PREFIX 200) s
    = (Normal data, s1) ->
  S3.Contents data = Some L ->
  Spec.signer_works w ->
  let n := Nat.min 5 (List.length (List.filter S3FileService.real_object L)) in
  Js.get "count" (body (result w (FileController.getFiles cfg) s))
    = Some (VNum (Z.of_nat n))
  /\ (L <> [] ->
      Js.get "count" (body (result w (Server.files cfg) s))
        = Some (VNum (Z.of_nat n))).
Proof.
  intros Hl HL Hw n. unfold result.
  rewrite getFiles_unfold, server_files_full, listRecentFiles_unfold, Hl, HL.
  cbv zeta.
  set (recent := Builtin.slice0 _ 5).
  destruct (exec_Promise_all_sign cfg w 300 recent s1) as (_ & Hobj & Hok).
  destruct (Hok Hw) as [entries He]. specialize (Hobj entries He).
  unfold result in He.
  destruct (exec w (Promise_all (List.map (S3FileService.sign_item cfg 300) recent))
              s1) as [[cs a] s2].
  cbn [fst snd] in He. subst a.
  assert (Hlen : List.length entries = n).
  { rewrite <- (length_map Spec.object_of), Hobj. subst recent n.
    change 5 with (Z.of_nat 5). rewrite slice0_firstn, length_firstn.
    now rewrite (Permutation_length (sort_perm _ _)). }
  split.
  - cbn. now rewrite Hlen.
  - intros Hne. destruct L as [|o L']; [congruence|]. cbn. now rewrite Hlen.
Qed.

Lemma files_count_capped_witness :
  Js.get "count"
    (body (result (Sample.scripted (Sample.healthy (Some Sample.ten_objects)))
             (FileController.getFiles Sample.cfg) tt))
  = Some (VNum 5).
Proof.
  refine (proj1 (files_count_capped Sample.cfg
            (Sample.scripted (Sample.healthy (Some Sample.ten_objects)))
            tt tt _ Sample.ten_objects eq_refl eq_refl _)).
  intros b k e s. eexists. reflexivity.
Defined.

(** X17: two files handed to [uploadVideoToS3] in the same millisecond are
    stored under the same key exactly when their sanitized names are equal
    (the default name standing in for a missing one): then the later upload
    overwrites the earlier. *)
Theorem same_instant_same_key (cfg : config) (w : world) (s : state w)
    (f1 f2 : File.t) :
  uploaded_keys (calls w (S3FileService.uploadVideoToS3 cfg f1) s)
  = uploaded_keys (calls w (S3FileService.uploadVideoToS3 cfg f2) s)
  <-> Spec.sanitize (str_or (File.originalname f1) (js "video.mp4"))
      = Spec.sanitize (str_or (File.originalname f2) (js "video.mp4")).
Proof.
  unfold calls. rewrite !uploadVideoToS3_exec, <- !replace_ws_sanitize.
  destruct (respond w S3.DateNow s) as [T s1]. cbv zeta.
  do 2 answer_call. unfold uploaded_keys.
  cbn [fst flat_map app S3.UploadKey]. unfold S3FileService.object_key.
  split.
  - intros E. apply (f_equal (hd [])) in E. cbn [hd] in E.
    do 3 apply app_inv_head in E. exact E.
  - now intros ->.
Qed.
